(** * leetmouse: the acceleration engine of driver/accel.c

    A shallow embedding of [updata_params] and [accelerate] and the
    properties the specification states about them.

    - C [float] is IEEE 754 binary32, modelled with the Standard Library's
      [spec_float] at precision 24 and maximal exponent 128;
    - [int] is [Z]; [long] and [ktime_t] are 64 bits wide (x86-64, where
      [kernel_fpu_begin] lives) and are [Z] with the wrap-around written out;
    - the file-scope and function-scope statics form the record [state];
    - the helpers of float.h and util.h ([B_sqrt], [B_pow], [Leet_round],
      [atof]), of which accel.c has only the calls, are the fields of the
      class [FloatLib]; every theorem holds for all of their implementations. *)

From Stdlib Require Import ZArith List Ascii String Bool Lia QArith Qabs Lqa.
From Stdlib Require Import Floats.SpecFloat.
Import ListNotations.

Local Open Scope Z_scope.

(** ** Machine integers *)

Definition INT_MIN : Z := -2147483648.
Definition INT_MAX : Z := 2147483647.

(** Two's complement wrap-around of a 64-bit signed value ([long], [ktime_t]). *)
Definition wrap64 (z : Z) : Z := (z + 2 ^ 63) mod 2 ^ 64 - 2 ^ 63.

Definition in_int (z : Z) : bool := (INT_MIN <=? z) && (z <=? INT_MAX).

(** errno values of the kernel headers. *)
Definition EBUSY : Z := 16.
Definition EFAULT : Z := 14.

(** ** Single precision arithmetic *)

Definition float : Type := spec_float.

Module F32.

Definition prec : Z := 24.
Definition emax : Z := 128.

Definition add : float -> float -> float := SFadd prec emax.
Definition sub : float -> float -> float := SFsub prec emax.
Definition mul : float -> float -> float := SFmul prec emax.
Definition div : float -> float -> float := SFdiv prec emax.

(** [a < b], [a <= b], [a == b] of C: all false on a NaN. *)
Definition ltb : float -> float -> bool := SFltb.
Definition leb : float -> float -> bool := SFleb.
Definition eqb : float -> float -> bool := SFeqb.

(** [(float) z] for an integer [z]: round to nearest, ties to even. *)
Definition of_Z (z : Z) : float := binary_normalize prec emax z 0 false.

(** The integer part of a finite float, towards zero. *)
Definition trunc (f : float) : option Z :=
  match f with
  | S754_zero _ => Some 0
  | S754_finite s m e =>
      Some (cond_Zopp s
              match e with
              | Z0 => Zpos m
              | Zpos p => Zpos m * 2 ^ Zpos p
              | Zneg p => Zpos m / 2 ^ Zpos p
              end)
  | S754_infinity _ | S754_nan => None
  end.

(** [(int) f]: truncation; a NaN, an infinity or a value out of range gives
    the x86 "integer indefinite" value, which is [INT_MIN] (the value the
    comment above the last trap of [accelerate] speaks of). *)
Definition to_int (f : float) : Z :=
  match trunc f with
  | Some z => if in_int z then z else INT_MIN
  | None => INT_MIN
  end.

(** The exact value of a finite float as a rational; 0 for the others. *)
Definition to_Q (f : float) : Q :=
  match f with
  | S754_finite s m e =>
      match e with
      | Z0 => inject_Z (cond_Zopp s (Zpos m))
      | Zpos p => inject_Z (cond_Zopp s (Zpos m) * 2 ^ Zpos p)
      | Zneg p => Qmake (cond_Zopp s (Zpos m)) (2 ^ p)
      end
  | _ => 0%Q
  end.

Definition is_finite (f : float) : bool :=
  match f with
  | S754_zero _ | S754_finite _ _ _ => true
  | _ => false
  end.

Definition zero : float := of_Z 0.
Definition one : float := of_Z 1.

End F32.

(** ** The helpers accel.c takes from float.h and util.h

    [B_sqrt (&f)] and [B_pow (&b, &p)] overwrite their first argument with the
    result; [Leet_round (&f)] returns an [int]; [atof (str, len, &result)]
    writes to [result] (the value it held before is its third argument
    here). *)
Class FloatLib : Type := {
  B_sqrt : float -> float;
  B_pow : float -> float -> float;
  Leet_round : float -> Z;
  atof : string -> Z -> float -> float
}.

(** ** Module parameters and statics *)

(** One field per [PARAM_F]: the macro declares a live [float g_<param>] and
    the string [g_param_<param>] behind the module parameter. *)
Record tunables (T : Type) : Type := {
  SpeedCap : T;
  Sensitivity : T;
  Acceleration : T;
  SensitivityCap : T;
  Offset : T;
  Exponent : T;
  Midpoint : T;
  ScrollsPerTick : T
}.

Arguments SpeedCap {T} _.
Arguments Sensitivity {T} _.
Arguments Acceleration {T} _.
Arguments SensitivityCap {T} _.
Arguments Offset {T} _.
Arguments Exponent {T} _.
Arguments Midpoint {T} _.
Arguments ScrollsPerTick {T} _.

Record state : Type := {
  g_update : Z;                 (* PARAM(update, ...), a char *)
  g_AccelerationMode : Z;       (* PARAM(AccelerationMode, ...), a char *)
  g : tunables float;           (* g_SpeedCap ... g_ScrollsPerTick *)
  g_param : tunables string;    (* g_param_SpeedCap ... *)
  g_next_update : Z;
  buffer_x : Z;
  buffer_y : Z;
  buffer_whl : Z;
  carry_x : float;
  carry_y : float;
  carry_whl : float;
  last_ms : float;
  last : Z
}.

(** The values of config.sample.h; [s(default)] is the text of the macro. *)
Definition defaults : tunables float := {|
  SpeedCap := F32.of_Z 0;
  Sensitivity := F32.of_Z 1;
  Acceleration := F32.div (F32.of_Z 4) (F32.of_Z 100);
  SensitivityCap := F32.div (F32.of_Z 22) (F32.of_Z 10);
  Offset := F32.of_Z 0;
  Exponent := F32.of_Z 0;
  Midpoint := F32.of_Z 1;
  ScrollsPerTick := F32.of_Z 3
|}.

Definition default_strings : tunables string := {|
  SpeedCap := "0.0f"%string;
  Sensitivity := "1.0f"%string;
  Acceleration := "0.04f"%string;
  SensitivityCap := "2.2f"%string;
  Offset := "0.0f"%string;
  Exponent := "0.0f"%string;
  Midpoint := "1.0f"%string;
  ScrollsPerTick := "3.0f"%string
|}.

Definition init : state := {|
  g_update := 0;
  g_AccelerationMode := 1;
  g := defaults;
  g_param := default_strings;
  g_next_update := 0;
  buffer_x := 0; buffer_y := 0; buffer_whl := 0;
  carry_x := F32.zero; carry_y := F32.zero; carry_whl := F32.zero;
  last_ms := F32.one;
  last := 0
|}.

(** Assignments to groups of statics. *)
Definition set_buffer (st : state) (bx by_ bw : Z) : state := {|
  g_update := g_update st;
  g_AccelerationMode := g_AccelerationMode st;
  g := g st;
  g_param := g_param st;
  g_next_update := g_next_update st;
  buffer_x := bx; buffer_y := by_; buffer_whl := bw;
  carry_x := carry_x st; carry_y := carry_y st; carry_whl := carry_whl st;
  last_ms := last_ms st;
  last := last st
|}.

Definition set_carry (st : state) (cx cy cw : float) : state := {|
  g_update := g_update st;
  g_AccelerationMode := g_AccelerationMode st;
  g := g st;
  g_param := g_param st;
  g_next_update := g_next_update st;
  buffer_x := buffer_x st; buffer_y := buffer_y st; buffer_whl := buffer_whl st;
  carry_x := cx; carry_y := cy; carry_whl := cw;
  last_ms := last_ms st;
  last := last st
|}.

Definition set_frame (st : state) (now : Z) (ms : float) : state := {|
  g_update := g_update st;
  g_AccelerationMode := g_AccelerationMode st;
  g := g st;
  g_param := g_param st;
  g_next_update := g_next_update st;
  buffer_x := buffer_x st; buffer_y := buffer_y st; buffer_whl := buffer_whl st;
  carry_x := carry_x st; carry_y := carry_y st; carry_whl := carry_whl st;
  last_ms := ms;
  last := now
|}.

Definition set_params (st : state) (upd next : Z) (v : tunables float) : state := {|
  g_update := upd;
  g_AccelerationMode := g_AccelerationMode st;
  g := v;
  g_param := g_param st;
  g_next_update := next;
  buffer_x := buffer_x st; buffer_y := buffer_y st; buffer_whl := buffer_whl st;
  carry_x := carry_x st; carry_y := carry_y st; carry_whl := carry_whl st;
  last_ms := last_ms st;
  last := last st
|}.

(** ** accel.c *)

(** What the kernel answers during one call: [irq_fpu_usable ()] and
    [ktime_get ()]. *)
Record env : Type := {
  irq_fpu_usable : bool;
  ktime_get : Z
}.

(** The return value of [accelerate], the values left in [*x], [*y] and
    [*wheel], and the statics after the call. *)
Record result : Type := {
  status : Z;
  out_x : Z;
  out_y : Z;
  out_wheel : Z;
  after : state
}.

Section Accel.

Context {lib : FloatLib}.

(** [PARAM_UPDATE(param)]: [atof(g_param_<param>, strlen(g_param_<param>), &g_<param>)]. *)
Definition PARAM_UPDATE (str : string) (old : float) : float :=
  atof str (Z.of_nat (String.length str)) old.

Definition updata_params (now : Z) (st : state) : state :=
  if g_update st =? 0 then st
  else if now <? g_next_update st then st
  else
    let p := g_param st in
    let v := g st in
    set_params st 0 (wrap64 (now + 1000000000))
      {| SpeedCap := PARAM_UPDATE (SpeedCap p) (SpeedCap v);
         Sensitivity := PARAM_UPDATE (Sensitivity p) (Sensitivity v);
         Acceleration := PARAM_UPDATE (Acceleration p) (Acceleration v);
         SensitivityCap := PARAM_UPDATE (SensitivityCap p) (SensitivityCap v);
         Offset := PARAM_UPDATE (Offset p) (Offset v);
         Exponent := PARAM_UPDATE (Exponent p) (Exponent v);
         Midpoint := PARAM_UPDATE (Midpoint p) (Midpoint v);
         ScrollsPerTick := PARAM_UPDATE (ScrollsPerTick p) (ScrollsPerTick v) |}.

(** [const float e = 2.71828f]. *)
Definition e_const : float := F32.div (F32.of_Z 271828) (F32.of_Z 100000).

(** "Calculate frametime": the value of [ms] stored into [last_ms]. *)
Definition frametime (now : Z) (st : state) : float :=
  let ms := F32.of_Z (Z.quot (wrap64 (now - last st)) (1000 * 1000)) in
  let ms := if F32.ltb ms (F32.of_Z 1) then last_ms st else ms in
  if F32.ltb (F32.of_Z 100) ms then F32.of_Z 100 else ms.

(** "Get distance traveled" up to "add possible rate offsets": the value
    of [speed] before the acceleration is applied. *)
Definition rate_of (v : tunables float) (ms delta_x delta_y : float) : float :=
  let speed := F32.add (F32.mul delta_x delta_x) (F32.mul delta_y delta_y) in
  let speed := B_sqrt speed in
  let speed :=
    if negb (F32.eqb (SpeedCap v) (F32.of_Z 0)) && F32.leb (SpeedCap v) speed
    then SpeedCap v else speed in
  let speed := F32.div speed ms in
  F32.sub speed (Offset v).

(** "Apply acceleration if movement is over offset": the [switch]. *)
Definition curve (mode : Z) (v : tunables float) (speed : float) : float :=
  if F32.ltb (F32.of_Z 0) speed then
    match mode with
    | 1 =>
        let speed := F32.mul speed (Acceleration v) in
        F32.add speed (F32.of_Z 1)
    | 2 =>
        let speed := F32.mul speed (Acceleration v) in
        let speed := F32.add speed (F32.of_Z 1) in
        B_pow speed (Exponent v)
    | 3 =>
        let product := F32.sub (Midpoint v) speed in
        let motivity := B_pow e_const product in
        F32.div (Acceleration v) (F32.add (F32.of_Z 1) motivity)
    | _ => speed
    end
  else speed.

(** [accelerate (&x, &y, &wheel)]. The local [accel_sens] is assigned and
    never read; [printk] leaves no trace in the statics. *)
Definition accelerate (e : env) (st : state) (x y wheel : Z) : result :=
  if negb (irq_fpu_usable e) then
    {| status := - EBUSY; out_x := x; out_y := y; out_wheel := wheel;
       after := set_buffer st (wrap64 (buffer_x st + x))
                  (wrap64 (buffer_y st + y)) (wrap64 (buffer_whl st + wheel)) |}
  else
    let delta_x := F32.of_Z x in
    let delta_y := F32.of_Z y in
    let delta_whl := F32.of_Z wheel in
    if negb ((F32.to_int delta_x =? x) && (F32.to_int delta_y =? y)
             && (F32.to_int delta_whl =? wheel)) then
      {| status := - EFAULT; out_x := x; out_y := y; out_wheel := wheel;
         after := set_buffer st (wrap64 (buffer_x st + x))
                    (wrap64 (buffer_y st + y)) (wrap64 (buffer_whl st + wheel)) |}
    else
      let delta_x := F32.add delta_x (F32.of_Z (buffer_x st)) in
      let delta_y := F32.add delta_y (F32.of_Z (buffer_y st)) in
      let delta_whl := F32.add delta_whl (F32.of_Z (buffer_whl st)) in
      let st := set_buffer st 0 0 0 in
      let now := ktime_get e in
      let ms := frametime now st in
      let st := set_frame st now ms in
      let st := updata_params now st in
      let speed := rate_of (g st) ms delta_x delta_y in
      let speed := curve (g_AccelerationMode st) (g st) speed in
      let delta_x := F32.mul delta_x speed in
      let delta_y := F32.mul delta_y speed in
      let delta_x := F32.mul delta_x (Sensitivity (g st)) in
      let delta_y := F32.mul delta_y (Sensitivity (g st)) in
      let delta_x := F32.add delta_x (carry_x st) in
      let delta_y := F32.add delta_y (carry_y st) in
      let delta_whl :=
        F32.mul delta_whl (F32.div (ScrollsPerTick (g st)) (F32.of_Z 3)) in
      let x := Leet_round delta_x in
      let y := Leet_round delta_y in
      let wheel := Leet_round delta_whl in
      if (x =? INT_MIN) || (y =? INT_MIN) || (wheel =? INT_MIN) then
        {| status := - EFAULT; out_x := x; out_y := y; out_wheel := wheel;
           after := st |}
      else
        {| status := 0; out_x := x; out_y := y; out_wheel := wheel;
           after := set_carry st (F32.sub delta_x (F32.of_Z x))
                      (F32.sub delta_y (F32.of_Z y))
                      (F32.sub delta_whl (F32.of_Z wheel)) |}.

(** *** The locals of [accelerate], named by the place that assigns them *)

(** The condition of the first trap, negated: the three casts check out. *)
Definition casts_ok (x y wheel : Z) : bool :=
  (F32.to_int (F32.of_Z x) =? x) && (F32.to_int (F32.of_Z y) =? y)
  && (F32.to_int (F32.of_Z wheel) =? wheel).

(** [delta_x] (and [delta_y], [delta_whl]) after "Add buffer values". *)
Definition merge (d buffer : Z) : float :=
  F32.add (F32.of_Z d) (F32.of_Z buffer).

(** The statics after [updata_params (now)]. *)
Definition polled (e : env) (st : state) : state :=
  updata_params (ktime_get e)
    (set_frame (set_buffer st 0 0 0) (ktime_get e)
       (frametime (ktime_get e) (set_buffer st 0 0 0))).

(** [speed] before and after "Apply acceleration if movement is over offset". *)
Definition rate_at (e : env) (st : state) (x y : Z) : float :=
  rate_of (g (polled e st)) (frametime (ktime_get e) (set_buffer st 0 0 0))
    (merge x (buffer_x st)) (merge y (buffer_y st)).

Definition gain_at (e : env) (st : state) (x y : Z) : float :=
  curve (g_AccelerationMode (polled e st)) (g (polled e st)) (rate_at e st x y).

(** [delta_x], [delta_y] and [delta_whl] before "Cast back to int". *)
Definition unrounded_x (e : env) (st : state) (x y : Z) : float :=
  F32.add
    (F32.mul (F32.mul (merge x (buffer_x st)) (gain_at e st x y))
       (Sensitivity (g (polled e st))))
    (carry_x (polled e st)).

Definition unrounded_y (e : env) (st : state) (x y : Z) : float :=
  F32.add
    (F32.mul (F32.mul (merge y (buffer_y st)) (gain_at e st x y))
       (Sensitivity (g (polled e st))))
    (carry_y (polled e st)).

Definition unrounded_whl (e : env) (st : state) (wheel : Z) : float :=
  F32.mul (merge wheel (buffer_whl st))
    (F32.div (ScrollsPerTick (g (polled e st))) (F32.of_Z 3)).

(** The condition of the last trap. *)
Definition trapped (e : env) (st : state) (x y wheel : Z) : bool :=
  (Leet_round (unrounded_x e st x y) =? INT_MIN)
  || (Leet_round (unrounded_y e st x y) =? INT_MIN)
  || (Leet_round (unrounded_whl e st wheel) =? INT_MIN).

End Accel.

(** ** Executions

    Between two calls of [accelerate] the owner of the machine may write the
    module parameters under /sys/module/leetmouse/parameters: the [update]
    flag, [AccelerationMode] and the strings of the [PARAM_F] parameters.
    [g_next_update], the buffers, the carries and the frame time are statics
    no one else reaches. *)
Inductive event : Type :=
  | Store (update mode : Z) (p : tunables string)
  | Irq (e : env) (x y wheel : Z).

Definition store (st : state) (update mode : Z) (p : tunables string) : state := {|
  g_update := update;
  g_AccelerationMode := mode;
  g := g st;
  g_param := p;
  g_next_update := g_next_update st;
  buffer_x := buffer_x st; buffer_y := buffer_y st; buffer_whl := buffer_whl st;
  carry_x := carry_x st; carry_y := carry_y st; carry_whl := carry_whl st;
  last_ms := last_ms st;
  last := last st
|}.

Section Executions.

Context {lib : FloatLib}.

Definition step (st : state) (ev : event) : state :=
  match ev with
  | Store u m p => store st u m p
  | Irq e x y wheel => after (accelerate e st x y wheel)
  end.

(** The statics after a list of events. *)
Definition run (st : state) (evs : list event) : state := fold_left step evs st.

(** What the calls of an execution returned, in order. *)
Fixpoint returns (st : state) (evs : list event) : list (Z * (Z * Z * Z)) :=
  match evs with
  | [] => []
  | Store u m p :: evs' => returns (store st u m p) evs'
  | Irq e x y wheel :: evs' =>
      let r := accelerate e st x y wheel in
      (status r, (out_x r, out_y r, out_wheel r)) :: returns (after r) evs'
  end.

(** The call gets as far as [updata_params (now)]: the FPU is usable and
    the casts of the first trap check out. *)
Definition reaches_update (e : env) (x y wheel : Z) : bool :=
  irq_fpu_usable e && casts_ok x y wheel.

(** [updata_params (now)] gets past its two [return]s. *)
Definition reload_due (now : Z) (st : state) : bool :=
  negb (g_update st =? 0) && negb (now <? g_next_update st).

(** The timestamps at which an execution re-parsed the parameters. *)
Fixpoint reload_times (st : state) (evs : list event) : list Z :=
  match evs with
  | [] => []
  | Store u m p :: evs' => reload_times (store st u m p) evs'
  | Irq e x y wheel :: evs' =>
      let rest := reload_times (after (accelerate e st x y wheel)) evs' in
      if reaches_update e x y wheel && reload_due (ktime_get e) st
      then ktime_get e :: rest else rest
  end.

Inductive reachable : state -> Prop :=
  | reachable_init : reachable init
  | reachable_step st ev : reachable st -> reachable (step st ev).

End Executions.

(** ** A reference implementation of the helpers

    Used to evaluate the model on concrete inputs. *)
Module Ref.

(** Modelled from the spec: [B_sqrt] of float.h, "rawSpeed = sqrt(dx^2 + dy^2)";
    the correctly rounded square root. *)
Definition sqrt (f : float) : float := SFsqrt F32.prec F32.emax f.

Fixpoint pow_pos (b : float) (n : positive) : float :=
  match n with
  | xH => b
  | xO n' => let h := pow_pos b n' in F32.mul h h
  | xI n' => let h := pow_pos b n' in F32.mul b (F32.mul h h)
  end.

(** Modelled from the spec: [B_pow] of float.h, the power "b ^ p" of the
    Classic and Motivity curves. Only a whole exponent is evaluated (by
    repeated multiplication); any other gives a NaN. *)
Definition pow (b p : float) : float :=
  match F32.trunc p with
  | Some n =>
      if F32.eqb (F32.of_Z n) p then
        match n with
        | Z0 => F32.one
        | Zpos k => pow_pos b k
        | Zneg k => F32.div F32.one (pow_pos b k)
        end
      else S754_nan
  | None => S754_nan
  end.

(** Modelled from the spec: [Leet_round] of float.h, "round to nearest
    integer", ties away from zero; what does not fit an [int] gives
    [INT_MIN], as the cast does. *)
Definition round (f : float) : Z :=
  match f with
  | S754_zero _ => 0
  | S754_finite s m e =>
      let n :=
        match e with
        | Z0 => Zpos m
        | Zpos p => Zpos m * 2 ^ Zpos p
        | Zneg p => (Zpos m + 2 ^ (Zpos p - 1)) / 2 ^ Zpos p
        end in
      if in_int (cond_Zopp s n) then cond_Zopp s n else INT_MIN
  | S754_infinity _ | S754_nan => INT_MIN
  end.

Definition digit_of (c : Ascii.ascii) : option Z :=
  let n := Z.of_N (Ascii.N_of_ascii c) in
  if (48 <=? n) && (n <=? 57) then Some (n - 48) else None.

(** Reads digits with at most one point into a fraction [num / den];
    stops at the first other character. *)
Fixpoint digits (s : string) (num den : Z) (frac : bool) : Z * Z :=
  match s with
  | EmptyString => (num, den)
  | String c s' =>
      match digit_of c with
      | Some d => digits s' (10 * num + d) (if frac then 10 * den else den) frac
      | None =>
          if Ascii.eqb c "."%char && negb frac then digits s' num den true
          else (num, den)
      end
  end.

(** Modelled from the spec: [atof] of util.c, the "string-to-float parsing
    routine": an optional sign, decimal digits, an optional point and more
    digits; the result replaces the old value. *)
Definition parse (str : string) (len : Z) (old : float) : float :=
  match str with
  | String c s' =>
      if Ascii.eqb c "-"%char then
        let '(n, d) := digits s' 0 1 false in
        SFopp (F32.div (F32.of_Z n) (F32.of_Z d))
      else
        let '(n, d) := digits str 0 1 false in
        F32.div (F32.of_Z n) (F32.of_Z d)
  | EmptyString => F32.zero
  end.

#[export] Instance lib : FloatLib := {|
  B_sqrt := sqrt;
  B_pow := pow;
  Leet_round := round;
  atof := parse
|}.

End Ref.

(** ** The specification's formulas

    Written after the sentences of the specification (Frame Timer, Curve
    Engine, Carry Accumulator), to be compared with what [accelerate]
    computes. *)
Module Spec.
Section Formulas.

Context {lib : FloatLib}.

(** Frame Timer: the difference of the timestamps in milliseconds; below 1
    the previous accepted value, above 100 clamped to 100. *)
Definition elapsed (now lastTimestamp : Z) (previous : float) : float :=
  let ms := F32.of_Z (Z.quot (wrap64 (now - lastTimestamp)) 1000000) in
  if F32.ltb ms (F32.of_Z 1) then previous
  else if F32.ltb (F32.of_Z 100) ms then F32.of_Z 100
  else ms.

(** Curve Engine, steps 1 and 2. *)
Definition rawSpeed (p : tunables float) (dx dy : float) : float :=
  let s := B_sqrt (F32.add (F32.mul dx dx) (F32.mul dy dy)) in
  if negb (F32.eqb (SpeedCap p) (F32.of_Z 0)) && F32.leb (SpeedCap p) s
  then SpeedCap p else s.

(** Step 3. *)
Definition rate (p : tunables float) (ms dx dy : float) : float :=
  F32.sub (F32.div (rawSpeed p dx dy) ms) (Offset p).

(** Step 5. *)
Definition linear (p : tunables float) (rate : float) : float :=
  F32.add (F32.mul rate (Acceleration p)) (F32.of_Z 1).

Definition classic (p : tunables float) (rate : float) : float :=
  B_pow (F32.add (F32.mul rate (Acceleration p)) (F32.of_Z 1)) (Exponent p).

Definition motivity (p : tunables float) (rate : float) : float :=
  F32.div (Acceleration p)
    (F32.add (F32.of_Z 1) (B_pow e_const (F32.sub (Midpoint p) rate))).

(** Carry Accumulator: [d * gain * Sensitivity + carry]. *)
Definition scaled (d gain sensitivity carry : float) : float :=
  F32.add (F32.mul (F32.mul d gain) sensitivity) carry.

(** [dwheel * (ScrollsPerTick / 3.0)]. *)
Definition scrolled (dwheel scrollsPerTick : float) : float :=
  F32.mul dwheel (F32.div scrollsPerTick (F32.of_Z 3)).

(** New carry: the floating value minus the rounded integer. *)
Definition remainder (value : float) (rounded : Z) : float :=
  F32.sub value (F32.of_Z rounded).

End Formulas.
End Spec.

(** ** The carry accumulator over an execution *)

Inductive axis : Type := AxisX | AxisY.

Definition sample_of (a : axis) (x y : Z) : Z :=
  match a with AxisX => x | AxisY => y end.

Definition buffer_of (a : axis) (st : state) : Z :=
  match a with AxisX => buffer_x st | AxisY => buffer_y st end.

Definition carry_of (a : axis) (st : state) : float :=
  match a with AxisX => carry_x st | AxisY => carry_y st end.

Definition out_of (a : axis) (r : result) : Z :=
  match a with AxisX => out_x r | AxisY => out_y r end.

Section Conservation.

Context {lib : FloatLib}.

Definition unrounded_of (a : axis) (e : env) (st : state) (x y : Z) : float :=
  match a with AxisX => unrounded_x e st x y | AxisY => unrounded_y e st x y end.

(** The ideal output of a cycle: sample times gain times sensitivity, as an
    exact rational. *)
Definition ideal (a : axis) (e : env) (st : state) (x y : Z) : Q :=
  F32.to_Q (merge (sample_of a x y) (buffer_of a st))
  * F32.to_Q (gain_at e st x y)
  * F32.to_Q (Sensitivity (g (polled e st))).

(** The single precision arithmetic of the carry step of a cycle commits no
    rounding error: the unrounded output is the ideal output plus the carry,
    the new carry is the unrounded output minus the rounded one, and
    [Leet_round] is off by at most one half. *)
Definition exact_cycle (a : axis) (e : env) (st : state) (x y : Z) : bool :=
  let u := unrounded_of a e st x y in
  let n := Leet_round u in
  F32.is_finite (merge (sample_of a x y) (buffer_of a st))
  && F32.is_finite (gain_at e st x y)
  && F32.is_finite (Sensitivity (g (polled e st)))
  && F32.is_finite (carry_of a st)
  && F32.is_finite u
  && F32.is_finite (F32.sub u (F32.of_Z n))
  && Qeq_bool (F32.to_Q u) (ideal a e st x y + F32.to_Q (carry_of a st))
  && Qeq_bool (F32.to_Q (F32.sub u (F32.of_Z n))) (F32.to_Q u - inject_Z n)
  && Qle_bool (Qabs (F32.to_Q u - inject_Z n)) (1 # 2).

(** Every call of the execution returns 0. *)
Fixpoint successful (st : state) (evs : list event) : bool :=
  match evs with
  | [] => true
  | Store u m p :: evs' => successful (store st u m p) evs'
  | Irq e x y wheel :: evs' =>
      let r := accelerate e st x y wheel in
      (status r =? 0) && successful (after r) evs'
  end.

(** Every call of the execution is an exact cycle. *)
Fixpoint exact (a : axis) (st : state) (evs : list event) : bool :=
  match evs with
  | [] => true
  | Store u m p :: evs' => exact a (store st u m p) evs'
  | Irq e x y wheel :: evs' =>
      exact_cycle a e st x y && exact a (after (accelerate e st x y wheel)) evs'
  end.

(** The gain of each call. *)
Fixpoint gains (st : state) (evs : list event) : list float :=
  match evs with
  | [] => []
  | Store u m p :: evs' => gains (store st u m p) evs'
  | Irq e x y wheel :: evs' =>
      gain_at e st x y :: gains (after (accelerate e st x y wheel)) evs'
  end.

(** The sum of the rounded outputs and of the ideal outputs. *)
Fixpoint sum_out (a : axis) (st : state) (evs : list event) : Z :=
  match evs with
  | [] => 0
  | Store u m p :: evs' => sum_out a (store st u m p) evs'
  | Irq e x y wheel :: evs' =>
      let r := accelerate e st x y wheel in
      out_of a r + sum_out a (after r) evs'
  end.

Fixpoint sum_ideal (a : axis) (st : state) (evs : list event) : Q :=
  match evs with
  | [] => 0%Q
  | Store u m p :: evs' => sum_ideal a (store st u m p) evs'
  | Irq e x y wheel :: evs' =>
      (ideal a e st x y + sum_ideal a (after (accelerate e st x y wheel)) evs')%Q
  end.

End Conservation.

(** A parameter set with the [SensitivityCap] field overwritten. *)
Definition without_cap {T : Type} (d : T) (p : tunables T) : tunables T := {|
  SpeedCap := SpeedCap p;
  Sensitivity := Sensitivity p;
  Acceleration := Acceleration p;
  SensitivityCap := d;
  Offset := Offset p;
  Exponent := Exponent p;
  Midpoint := Midpoint p;
  ScrollsPerTick := ScrollsPerTick p
|}.

(** ** Observations of an execution *)

(** The clock is a [ktime_t] that one second does not overflow. *)
Definition clock_ok (evs : list event) : Prop :=
  Forall (fun ev =>
            match ev with
            | Irq e _ _ _ => - 2 ^ 63 <= ktime_get e < 2 ^ 63 - 1000000000
            | Store _ _ _ => True
            end) evs.

(** Every timestamp is at least [bound], and each later one at least a
    second after the one before. *)
Fixpoint spaced_from (bound : Z) (ts : list Z) : Prop :=
  match ts with
  | [] => True
  | t :: ts' => bound <= t /\ spaced_from (t + 1000000000) ts'
  end.

(** The statics with [g_SensitivityCap] and [g_param_SensitivityCap] blanked:
    two states with the same image differ at most in these two. *)
Definition erase (st : state) : state := {|
  g_update := g_update st;
  g_AccelerationMode := g_AccelerationMode st;
  g := without_cap F32.zero (g st);
  g_param := without_cap EmptyString (g_param st);
  g_next_update := g_next_update st;
  buffer_x := buffer_x st; buffer_y := buffer_y st; buffer_whl := buffer_whl st;
  carry_x := carry_x st; carry_y := carry_y st; carry_whl := carry_whl st;
  last_ms := last_ms st;
  last := last st
|}.

(** Two events that differ at most in the string written to
    [SensitivityCap]. *)
Inductive same_event : event -> event -> Prop :=
  | same_store u m p1 p2 :
      without_cap EmptyString p1 = without_cap EmptyString p2 ->
      same_event (Store u m p1) (Store u m p2)
  | same_irq e x y wheel : same_event (Irq e x y wheel) (Irq e x y wheel).

(** Calls made while the FPU is not usable, one per sample. *)
Definition busy_calls (now : Z) (samples : list (Z * Z * Z)) : list event :=
  map (fun s => Irq {| irq_fpu_usable := false; ktime_get := now |}
                  (fst (fst s)) (snd (fst s)) (snd s)) samples.

Definition total (f : Z * Z * Z -> Z) (samples : list (Z * Z * Z)) : Z :=
  fold_right (fun s acc => f s + acc) 0 samples.

(** No event raises the [update] flag. *)
Definition quiet (evs : list event) : Prop :=
  Forall (fun ev =>
            match ev with
            | Store update _ _ => update = 0
            | Irq _ _ _ _ => True
            end) evs.

(** The number of writes that raise the [update] flag. *)
Fixpoint requests (evs : list event) : nat :=
  match evs with
  | [] => 0%nat
  | Store update _ _ :: evs' =>
      if update =? 0 then requests evs' else S (requests evs')
  | Irq _ _ _ _ :: evs' => requests evs'
  end.

(** The statics with another wheel carry. *)
Definition with_carry_whl (st : state) (w : float) : state :=
  set_carry st (carry_x st) (carry_y st) w.

(** The mode and the strings of the last write of an execution, if any. *)
Fixpoint last_store (evs : list event) : option (Z * tunables string) :=
  match evs with
  | [] => None
  | Store _ mode p :: evs' =>
      match last_store evs' with
      | Some w => Some w
      | None => Some (mode, p)
      end
  | Irq _ _ _ _ :: evs' => last_store evs'
  end.

(** ** Concrete inputs

    States and calls on which the model is evaluated with the reference
    helpers [Ref.lib]. *)

Definition usable (now : Z) : env := {| irq_fpu_usable := true; ktime_get := now |}.
Definition unusable (now : Z) : env := {| irq_fpu_usable := false; ktime_get := now |}.

(** Strings written to the parameters: no acceleration, sensitivity 2. *)
Definition doubling : tunables string := {|
  SpeedCap := "0"%string;
  Sensitivity := "2"%string;
  Acceleration := "0"%string;
  SensitivityCap := "2.2"%string;
  Offset := "0"%string;
  Exponent := "0"%string;
  Midpoint := "1"%string;
  ScrollsPerTick := "3"%string
|}.

(** The defaults, with [doubling] written and the update flag raised. *)
Definition pending : state := store init 1 1 doubling.

(** The same after a first call has re-parsed the parameters. *)
Definition doubled : state :=
  after (accelerate (lib := Ref.lib) (usable 1000000) pending 0 0 0).

(** The defaults in another mode. *)
Definition in_mode (mode : Z) : state := store init 0 mode default_strings.

(** The defaults with another [SensitivityCap], live and as a string. *)
Definition recapped : state := {|
  g_update := 0;
  g_AccelerationMode := 1;
  g := without_cap (F32.of_Z 9) defaults;
  g_param := without_cap "9"%string default_strings;
  g_next_update := 0;
  buffer_x := 0; buffer_y := 0; buffer_whl := 0;
  carry_x := F32.zero; carry_y := F32.zero; carry_whl := F32.zero;
  last_ms := F32.one;
  last := 0
|}.

(** A reload, a busy call, a second reload asked for too early and
    granted a second after the first. *)
Definition two_reloads : list event :=
  [ Store 1 1 doubling;
    Irq (usable 5000000) 10 0 1;
    Irq (unusable 6000000) 3 0 0;
    Store 1 1 default_strings;
    Irq (usable 500000000) 1 1 0;
    Irq (usable 1005000000) 1 1 0 ].

Definition two_reloads_recapped : list event :=
  [ Store 1 1 (without_cap "7"%string doubling);
    Irq (usable 5000000) 10 0 1;
    Irq (unusable 6000000) 3 0 0;
    Store 1 1 (without_cap "0.5"%string default_strings);
    Irq (usable 500000000) 1 1 0;
    Irq (usable 1005000000) 1 1 0 ].

(** Strings written to the parameters: no acceleration, sensitivity 1/4. *)
Definition quartering : tunables string := {|
  SpeedCap := "0"%string;
  Sensitivity := "0.25"%string;
  Acceleration := "0"%string;
  SensitivityCap := "2.2"%string;
  Offset := "0"%string;
  Exponent := "0"%string;
  Midpoint := "1"%string;
  ScrollsPerTick := "3"%string
|}.

(** The statics once [quartering] has been re-parsed. *)
Definition quarter : state :=
  after (accelerate (lib := Ref.lib) (usable 1000000) (store init 1 1 quartering) 0 0 0).

(** Ten calls a millisecond apart: one count, then 2^26 counts, five times. *)
Definition slow_fast : list event :=
  [ Irq (usable 2000000) 1 0 0; Irq (usable 3000000) 67108864 0 0;
    Irq (usable 4000000) 1 0 0; Irq (usable 5000000) 67108864 0 0;
    Irq (usable 6000000) 1 0 0; Irq (usable 7000000) 67108864 0 0;
    Irq (usable 8000000) 1 0 0; Irq (usable 9000000) 67108864 0 0;
    Irq (usable 10000000) 1 0 0; Irq (usable 11000000) 67108864 0 0 ].

(** Six calls of one count each. *)
Definition slow : list event :=
  [ Irq (usable 2000000) 1 0 0; Irq (usable 3000000) 1 0 0;
    Irq (usable 4000000) 1 0 0; Irq (usable 5000000) 1 0 0;
    Irq (usable 6000000) 1 0 0; Irq (usable 7000000) 1 0 0 ].

(** Writes that leave the flag down, between calls. *)
Definition unflagged : list event :=
  [ Store 0 2 doubling;
    Irq (usable 5000000) 10 0 1;
    Irq (unusable 6000000) 3 0 0;
    Store 0 3 quartering;
    Irq (usable 2005000000) 1 1 0 ].

(** * Properties *)

Section Paths.

Context {lib : FloatLib}.

Lemma accelerate_busy e st x y wheel :
  irq_fpu_usable e = false ->
  accelerate e st x y wheel =
  {| status := - EBUSY; out_x := x; out_y := y; out_wheel := wheel;
     after := set_buffer st (wrap64 (buffer_x st + x))
                (wrap64 (buffer_y st + y)) (wrap64 (buffer_whl st + wheel)) |}.
Proof.
  intros Hu. unfold accelerate. rewrite Hu. reflexivity.
Qed.

Lemma accelerate_cast_fault e st x y wheel :
  irq_fpu_usable e = true ->
  casts_ok x y wheel = false ->
  accelerate e st x y wheel =
  {| status := - EFAULT; out_x := x; out_y := y; out_wheel := wheel;
     after := set_buffer st (wrap64 (buffer_x st + x))
                (wrap64 (buffer_y st + y)) (wrap64 (buffer_whl st + wheel)) |}.
Proof.
  intros Hu Hc. unfold accelerate. rewrite Hu. cbn [negb].
  unfold casts_ok in Hc. rewrite Hc. reflexivity.
Qed.

Lemma accelerate_guarded e st x y wheel :
  irq_fpu_usable e = true ->
  casts_ok x y wheel = true ->
  accelerate e st x y wheel =
  if trapped e st x y wheel then
    {| status := - EFAULT;
       out_x := Leet_round (unrounded_x e st x y);
       out_y := Leet_round (unrounded_y e st x y);
       out_wheel := Leet_round (unrounded_whl e st wheel);
       after := polled e st |}
  else
    {| status := 0;
       out_x := Leet_round (unrounded_x e st x y);
       out_y := Leet_round (unrounded_y e st x y);
       out_wheel := Leet_round (unrounded_whl e st wheel);
       after :=
         set_carry (polled e st)
           (Spec.remainder (unrounded_x e st x y) (Leet_round (unrounded_x e st x y)))
           (Spec.remainder (unrounded_y e st x y) (Leet_round (unrounded_y e st x y)))
           (Spec.remainder (unrounded_whl e st wheel)
              (Leet_round (unrounded_whl e st wheel))) |}.
Proof.
  intros Hu Hc. unfold accelerate. rewrite Hu. cbn [negb].
  unfold casts_ok in Hc. rewrite Hc. cbn [negb].
  unfold trapped, Spec.remainder, unrounded_x, unrounded_y, unrounded_whl,
    gain_at, rate_at, polled, merge.
  cbv zeta. reflexivity.
Qed.

Lemma accelerate_trapped e st x y wheel :
  irq_fpu_usable e = true ->
  casts_ok x y wheel = true ->
  trapped e st x y wheel = true ->
  accelerate e st x y wheel =
  {| status := - EFAULT;
     out_x := Leet_round (unrounded_x e st x y);
     out_y := Leet_round (unrounded_y e st x y);
     out_wheel := Leet_round (unrounded_whl e st wheel);
     after := polled e st |}.
Proof.
  intros Hu Hc Ht. rewrite accelerate_guarded by assumption.
  rewrite Ht. reflexivity.
Qed.

Lemma accelerate_ok e st x y wheel :
  irq_fpu_usable e = true ->
  casts_ok x y wheel = true ->
  trapped e st x y wheel = false ->
  accelerate e st x y wheel =
  {| status := 0;
     out_x := Leet_round (unrounded_x e st x y);
     out_y := Leet_round (unrounded_y e st x y);
     out_wheel := Leet_round (unrounded_whl e st wheel);
     after :=
       set_carry (polled e st)
         (Spec.remainder (unrounded_x e st x y) (Leet_round (unrounded_x e st x y)))
         (Spec.remainder (unrounded_y e st x y) (Leet_round (unrounded_y e st x y)))
         (Spec.remainder (unrounded_whl e st wheel)
            (Leet_round (unrounded_whl e st wheel))) |}.
Proof.
  intros Hu Hc Ht. rewrite accelerate_guarded by assumption.
  rewrite Ht. reflexivity.
Qed.

Lemma status_zero_done e st x y wheel :
  status (accelerate e st x y wheel) = 0 ->
  irq_fpu_usable e = true /\ casts_ok x y wheel = true
  /\ trapped e st x y wheel = false.
Proof.
  intros H.
  destruct (irq_fpu_usable e) eqn:Hu.
  2:{ rewrite accelerate_busy in H by assumption. discriminate H. }
  destruct (casts_ok x y wheel) eqn:Hc.
  2:{ rewrite accelerate_cast_fault in H by assumption. discriminate H. }
  destruct (trapped e st x y wheel) eqn:Ht.
  { rewrite accelerate_trapped in H by assumption. discriminate H. }
  auto.
Qed.

End Paths.

(** ** What the steps leave alone *)

Section Frames.

Context {lib : FloatLib}.

Lemma frametime_set_buffer now st bx by_ bw :
  frametime now (set_buffer st bx by_ bw) = frametime now st.
Proof. reflexivity. Qed.

(** [updata_params] either returns at once or re-parses. *)
Lemma updata_params_cases now st :
  (reload_due now st = false /\ updata_params now st = st)
  \/ (reload_due now st = true
      /\ updata_params now st =
         set_params st 0 (wrap64 (now + 1000000000))
           {| SpeedCap := PARAM_UPDATE (SpeedCap (g_param st)) (SpeedCap (g st));
              Sensitivity := PARAM_UPDATE (Sensitivity (g_param st)) (Sensitivity (g st));
              Acceleration := PARAM_UPDATE (Acceleration (g_param st)) (Acceleration (g st));
              SensitivityCap :=
                PARAM_UPDATE (SensitivityCap (g_param st)) (SensitivityCap (g st));
              Offset := PARAM_UPDATE (Offset (g_param st)) (Offset (g st));
              Exponent := PARAM_UPDATE (Exponent (g_param st)) (Exponent (g st));
              Midpoint := PARAM_UPDATE (Midpoint (g_param st)) (Midpoint (g st));
              ScrollsPerTick :=
                PARAM_UPDATE (ScrollsPerTick (g_param st)) (ScrollsPerTick (g st)) |}).
Proof.
  unfold updata_params, reload_due.
  destruct (g_update st =? 0); [left; split; reflexivity|].
  destruct (now <? g_next_update st); [left; split; reflexivity|].
  right. split; reflexivity.
Qed.

Lemma updata_params_statics now st :
  g_AccelerationMode (updata_params now st) = g_AccelerationMode st
  /\ g_param (updata_params now st) = g_param st
  /\ buffer_x (updata_params now st) = buffer_x st
  /\ buffer_y (updata_params now st) = buffer_y st
  /\ buffer_whl (updata_params now st) = buffer_whl st
  /\ carry_x (updata_params now st) = carry_x st
  /\ carry_y (updata_params now st) = carry_y st
  /\ carry_whl (updata_params now st) = carry_whl st
  /\ last_ms (updata_params now st) = last_ms st
  /\ last (updata_params now st) = last st.
Proof.
  destruct (updata_params_cases now st) as [[_ ->]|[_ ->]];
    repeat split; reflexivity.
Qed.

(** The buffers and the frame time do not bear on the re-parsing. *)
Lemma updata_params_frame now st bx by_ bw t ms :
  g (updata_params now (set_frame (set_buffer st bx by_ bw) t ms))
  = g (updata_params now st)
  /\ g_update (updata_params now (set_frame (set_buffer st bx by_ bw) t ms))
     = g_update (updata_params now st)
  /\ g_next_update (updata_params now (set_frame (set_buffer st bx by_ bw) t ms))
     = g_next_update (updata_params now st).
Proof.
  unfold updata_params.
  cbn [g_update g_next_update g g_param set_frame set_buffer].
  destruct (g_update st =? 0); [repeat split; reflexivity|].
  destruct (now <? g_next_update st); repeat split; reflexivity.
Qed.

Lemma polled_statics e st :
  g (polled e st) = g (updata_params (ktime_get e) st)
  /\ g_AccelerationMode (polled e st) = g_AccelerationMode st
  /\ g_param (polled e st) = g_param st
  /\ buffer_x (polled e st) = 0
  /\ buffer_y (polled e st) = 0
  /\ buffer_whl (polled e st) = 0
  /\ carry_x (polled e st) = carry_x st
  /\ carry_y (polled e st) = carry_y st
  /\ carry_whl (polled e st) = carry_whl st
  /\ last_ms (polled e st) = frametime (ktime_get e) st
  /\ last (polled e st) = ktime_get e.
Proof.
  unfold polled.
  pose proof (updata_params_frame (ktime_get e) st 0 0 0 (ktime_get e)
                (frametime (ktime_get e) (set_buffer st 0 0 0))) as [Hg _].
  pose proof (updata_params_statics (ktime_get e)
                (set_frame (set_buffer st 0 0 0) (ktime_get e)
                   (frametime (ktime_get e) (set_buffer st 0 0 0))))
    as (Hm & Hp & Hbx & Hby & Hbw & Hcx & Hcy & Hcw & Hms & Hl).
  rewrite Hg, Hm, Hp, Hbx, Hby, Hbw, Hcx, Hcy, Hcw, Hms, Hl.
  repeat split; reflexivity.
Qed.

(** [rate <= 0] excludes [rate > 0]. *)
Lemma leb_zero_not_gt (f : float) :
  F32.leb f (F32.of_Z 0) = true -> F32.ltb (F32.of_Z 0) f = false.
Proof.
  change (F32.of_Z 0) with (S754_zero false).
  unfold F32.leb, F32.ltb, SFleb, SFltb.
  destruct f as [s|s| |s m e]; cbn; try destruct s; intros H;
    try reflexivity; discriminate H.
Qed.

Lemma rate_at_spec e st x y :
  rate_at e st x y =
  Spec.rate (g (updata_params (ktime_get e) st)) (frametime (ktime_get e) st)
    (merge x (buffer_x st)) (merge y (buffer_y st)).
Proof.
  unfold rate_at. destruct (polled_statics e st) as [-> _]. reflexivity.
Qed.

End Frames.

(** ** Curve Engine and Carry Accumulator *)

Section Curve.

Context {lib : FloatLib}.

Lemma gain_at_spec e st x y :
  gain_at e st x y =
  curve (g_AccelerationMode st) (g (updata_params (ktime_get e) st))
    (Spec.rate (g (updata_params (ktime_get e) st)) (frametime (ktime_get e) st)
       (merge x (buffer_x st)) (merge y (buffer_y st))).
Proof.
  unfold gain_at. rewrite rate_at_spec.
  destruct (polled_statics e st) as (-> & -> & _). reflexivity.
Qed.

Lemma unrounded_spec e st x y wheel :
  unrounded_x e st x y =
  Spec.scaled (merge x (buffer_x st)) (gain_at e st x y)
    (Sensitivity (g (updata_params (ktime_get e) st))) (carry_x st)
  /\ unrounded_y e st x y =
     Spec.scaled (merge y (buffer_y st)) (gain_at e st x y)
       (Sensitivity (g (updata_params (ktime_get e) st))) (carry_y st)
  /\ unrounded_whl e st wheel =
     Spec.scrolled (merge wheel (buffer_whl st))
       (ScrollsPerTick (g (updata_params (ktime_get e) st))).
Proof.
  unfold unrounded_x, unrounded_y, unrounded_whl, Spec.scaled, Spec.scrolled.
  destruct (polled_statics e st) as (-> & _ & _ & _ & _ & _ & -> & -> & _).
  repeat split; reflexivity.
Qed.

(** C1: in a successful cycle with [rate > 0], the gain is
    [rate * Acceleration + 1] in mode 1 (Linear),
    [(rate * Acceleration + 1) ^ Exponent] in mode 2 (Classic) and
    [Acceleration / (1 + e ^ (Midpoint - rate))] in mode 3 (Motivity), where
    [rate = rawSpeed / ms - Offset] and [rawSpeed] is the capped distance; the
    same gain scales both axes. *)
Theorem curve_gain_by_mode e st x y wheel :
  let r := accelerate e st x y wheel in
  let p := g (updata_params (ktime_get e) st) in
  let dx := merge x (buffer_x st) in
  let dy := merge y (buffer_y st) in
  let rate := Spec.rate p (frametime (ktime_get e) st) dx dy in
  let gain := gain_at e st x y in
  status r = 0 ->
  F32.ltb (F32.of_Z 0) rate = true ->
  (g_AccelerationMode st = 1 -> gain = Spec.linear p rate)
  /\ (g_AccelerationMode st = 2 -> gain = Spec.classic p rate)
  /\ (g_AccelerationMode st = 3 -> gain = Spec.motivity p rate)
  /\ out_x r = Leet_round (Spec.scaled dx gain (Sensitivity p) (carry_x st))
  /\ out_y r = Leet_round (Spec.scaled dy gain (Sensitivity p) (carry_y st)).
Proof.
  intros r p dx dy rate gain Hs Hr.
  destruct (status_zero_done _ _ _ _ _ Hs) as (Hu & Hc & Ht).
  destruct (unrounded_spec e st x y wheel) as (Hx & Hy & _).
  assert (Hg : gain = curve (g_AccelerationMode st) p rate)
    by (apply gain_at_spec).
  unfold curve in Hg. rewrite Hr in Hg.
  split; [intros Hm; rewrite Hm in Hg; exact Hg|].
  split; [intros Hm; rewrite Hm in Hg; exact Hg|].
  split; [intros Hm; rewrite Hm in Hg; exact Hg|].
  subst r. rewrite accelerate_ok by assumption.
  cbn [out_x out_y]. rewrite Hx, Hy. split; reflexivity.
Qed.

(** C4: in a successful cycle where no curve is applied ([rate <= 0], or
    [rate > 0] with a mode other than 1, 2 and 3) the gain is [rate] itself,
    on both axes. *)
Theorem no_curve_gain_is_rate e st x y wheel :
  let r := accelerate e st x y wheel in
  let p := g (updata_params (ktime_get e) st) in
  let dx := merge x (buffer_x st) in
  let dy := merge y (buffer_y st) in
  let rate := Spec.rate p (frametime (ktime_get e) st) dx dy in
  status r = 0 ->
  F32.leb rate (F32.of_Z 0) = true
  \/ (F32.ltb (F32.of_Z 0) rate = true
      /\ g_AccelerationMode st <> 1 /\ g_AccelerationMode st <> 2
      /\ g_AccelerationMode st <> 3) ->
  gain_at e st x y = rate
  /\ out_x r = Leet_round (Spec.scaled dx rate (Sensitivity p) (carry_x st))
  /\ out_y r = Leet_round (Spec.scaled dy rate (Sensitivity p) (carry_y st)).
Proof.
  intros r p dx dy rate Hs Hcase.
  destruct (status_zero_done _ _ _ _ _ Hs) as (Hu & Hc & Ht).
  destruct (unrounded_spec e st x y wheel) as (Hx & Hy & _).
  assert (Hg : gain_at e st x y = rate).
  { rewrite gain_at_spec. fold p dx dy rate. unfold curve.
    destruct Hcase as [Hle | (Hgt & H1 & H2 & H3)].
    - rewrite (leb_zero_not_gt _ Hle). reflexivity.
    - rewrite Hgt.
      destruct (g_AccelerationMode st) as [|m|m]; try reflexivity.
      destruct m as [m|m|]; try destruct m; try reflexivity;
        exfalso; auto. }
  split; [exact Hg|].
  subst r. rewrite accelerate_ok by assumption.
  cbn [out_x out_y]. rewrite Hx, Hy, Hg. split; reflexivity.
Qed.

(** C5: in a successful cycle with gain [gain] the outputs are
    [round (dx * gain * Sensitivity + carry_x)] and
    [round (dy * gain * Sensitivity + carry_y)], the wheel output is
    [round (dwheel * (ScrollsPerTick / 3.0))] with neither gain nor
    sensitivity, and each new carry is the value before rounding minus the
    rounded output. *)
Theorem outputs_and_carry e st x y wheel :
  let r := accelerate e st x y wheel in
  let p := g (updata_params (ktime_get e) st) in
  let gain := gain_at e st x y in
  let fx := Spec.scaled (merge x (buffer_x st)) gain (Sensitivity p) (carry_x st) in
  let fy := Spec.scaled (merge y (buffer_y st)) gain (Sensitivity p) (carry_y st) in
  let fw := Spec.scrolled (merge wheel (buffer_whl st)) (ScrollsPerTick p) in
  status r = 0 ->
  out_x r = Leet_round fx
  /\ out_y r = Leet_round fy
  /\ out_wheel r = Leet_round fw
  /\ carry_x (after r) = Spec.remainder fx (out_x r)
  /\ carry_y (after r) = Spec.remainder fy (out_y r)
  /\ carry_whl (after r) = Spec.remainder fw (out_wheel r).
Proof.
  intros r p gain fx fy fw Hs.
  destruct (status_zero_done _ _ _ _ _ Hs) as (Hu & Hc & Ht).
  destruct (unrounded_spec e st x y wheel) as (Hx & Hy & Hw).
  subst r. rewrite accelerate_ok by assumption.
  cbn [out_x out_y out_wheel after carry_x carry_y carry_whl set_carry].
  rewrite Hx, Hy, Hw. repeat split; reflexivity.
Qed.

End Curve.

(** ** Frame Timer *)

Section FrameTimer.

Context {lib : FloatLib}.

Lemma frametime_bounded now st :
  F32.ltb (F32.of_Z 100) (frametime now st) = false.
Proof.
  unfold frametime. cbv zeta.
  match goal with
  | |- F32.ltb _ (if F32.ltb _ ?m then _ else _) = false =>
      destruct (F32.ltb (F32.of_Z 100) m) eqn:E
  end.
  - vm_compute. reflexivity.
  - exact E.
Qed.

Lemma accelerate_last_ms e st x y wheel :
  last_ms (after (accelerate e st x y wheel)) = last_ms st
  \/ last_ms (after (accelerate e st x y wheel)) = frametime (ktime_get e) st.
Proof.
  destruct (irq_fpu_usable e) eqn:Hu.
  2:{ rewrite accelerate_busy by assumption. left. reflexivity. }
  destruct (casts_ok x y wheel) eqn:Hc.
  2:{ rewrite accelerate_cast_fault by assumption. left. reflexivity. }
  right. rewrite accelerate_guarded by assumption.
  destruct (polled_statics e st) as (_ & _ & _ & _ & _ & _ & _ & _ & _ & Hms & _).
  destruct (trapped e st x y wheel); cbn [after last_ms set_carry]; exact Hms.
Qed.

(** The stored frame time never exceeds 100. *)
Lemma reachable_last_ms st :
  reachable st -> F32.ltb (F32.of_Z 100) (last_ms st) = false.
Proof.
  induction 1 as [|st ev Hr IH].
  - vm_compute. reflexivity.
  - destruct ev as [u m p|e x y wheel]; cbn [step].
    + exact IH.
    + destruct (accelerate_last_ms e st x y wheel) as [-> | ->].
      * exact IH.
      * apply frametime_bounded.
Qed.

Lemma frametime_elapsed now st :
  F32.ltb (F32.of_Z 100) (last_ms st) = false ->
  frametime now st = Spec.elapsed now (last st) (last_ms st).
Proof.
  intros Hinv. unfold frametime, Spec.elapsed.
  change (1000 * 1000) with 1000000. cbv zeta.
  destruct (F32.ltb (F32.of_Z (Z.quot (wrap64 (now - last st)) 1000000)) (F32.of_Z 1)).
  - rewrite Hinv. reflexivity.
  - reflexivity.
Qed.

(** C7: in every cycle that gets to the frame timer, the frame time used by
    the curve computation is the difference of the two timestamps in
    milliseconds, but the previous accepted value when that is below 1 and
    100 when it is above 100; the value used is stored for the next call. *)
Theorem frame_time_rule e st x y wheel :
  reachable st ->
  irq_fpu_usable e = true ->
  casts_ok x y wheel = true ->
  let r := accelerate e st x y wheel in
  let ms := Spec.elapsed (ktime_get e) (last st) (last_ms st) in
  rate_at e st x y =
    Spec.rate (g (updata_params (ktime_get e) st)) ms
      (merge x (buffer_x st)) (merge y (buffer_y st))
  /\ last_ms (after r) = ms
  /\ last (after r) = ktime_get e.
Proof.
  intros Hreach Hu Hc r ms.
  pose proof (frametime_elapsed (ktime_get e) st (reachable_last_ms st Hreach)) as Hft.
  fold ms in Hft.
  split; [rewrite rate_at_spec, Hft; reflexivity|].
  subst r. rewrite accelerate_guarded by assumption.
  destruct (polled_statics e st) as (_ & _ & _ & _ & _ & _ & _ & _ & _ & Hms & Hl).
  rewrite Hft in Hms.
  destruct (trapped e st x y wheel); cbn [after last_ms last set_carry];
    split; assumption.
Qed.

End FrameTimer.

(** ** Numeric Context Guard: the failure paths *)

Section Failures.

Context {lib : FloatLib}.

(** C9: when the FPU is not usable, the sample is added to the buffers, the
    call returns [-EBUSY] and nothing else changes: carries, parameters,
    the last timestamp and the last frame time are as before. *)
Theorem context_unavailable_buffers st now x y wheel :
  let r := accelerate (unusable now) st x y wheel in
  status r = - EBUSY
  /\ (out_x r, out_y r, out_wheel r) = (x, y, wheel)
  /\ buffer_x (after r) = wrap64 (buffer_x st + x)
  /\ buffer_y (after r) = wrap64 (buffer_y st + y)
  /\ buffer_whl (after r) = wrap64 (buffer_whl st + wheel)
  /\ (carry_x (after r), carry_y (after r), carry_whl (after r))
     = (carry_x st, carry_y st, carry_whl st)
  /\ g (after r) = g st
  /\ g_AccelerationMode (after r) = g_AccelerationMode st
  /\ g_param (after r) = g_param st
  /\ g_update (after r) = g_update st
  /\ g_next_update (after r) = g_next_update st
  /\ last (after r) = last st
  /\ last_ms (after r) = last_ms st.
Proof.
  intros r. subst r. rewrite accelerate_busy by reflexivity.
  repeat split; reflexivity.
Qed.

Lemma status_cases e st x y wheel :
  (irq_fpu_usable e = false /\ status (accelerate e st x y wheel) = - EBUSY)
  \/ (irq_fpu_usable e = true /\ casts_ok x y wheel = false
      /\ status (accelerate e st x y wheel) = - EFAULT)
  \/ (irq_fpu_usable e = true /\ casts_ok x y wheel = true
      /\ trapped e st x y wheel = true
      /\ status (accelerate e st x y wheel) = - EFAULT)
  \/ (irq_fpu_usable e = true /\ casts_ok x y wheel = true
      /\ trapped e st x y wheel = false
      /\ status (accelerate e st x y wheel) = 0).
Proof.
  destruct (irq_fpu_usable e) eqn:Hu.
  2:{ left. rewrite accelerate_busy by assumption. auto. }
  destruct (casts_ok x y wheel) eqn:Hc.
  2:{ right; left. rewrite accelerate_cast_fault by assumption. auto. }
  destruct (trapped e st x y wheel) eqn:Ht.
  - right; right; left. rewrite accelerate_trapped by assumption. auto.
  - right; right; right. rewrite accelerate_ok by assumption. auto.
Qed.

(** C2, amended: a call that returns a failure status leaves the carries and
    [AccelerationMode] as they were. If it failed before the parameter poll
    (FPU not usable, or the first trap) the float parameters are unchanged
    as well and the buffers have grown by the sample. If it failed at the
    last trap, the float parameters are those the poll of this call left
    (re-parsed when an update was pending and due, else unchanged) and the
    buffers are drained. *)
Theorem failure_effects e st x y wheel :
  let r := accelerate e st x y wheel in
  status r <> 0 ->
  (carry_x (after r), carry_y (after r), carry_whl (after r))
  = (carry_x st, carry_y st, carry_whl st)
  /\ g_AccelerationMode (after r) = g_AccelerationMode st
  /\ (reaches_update e x y wheel = false ->
      g (after r) = g st
      /\ buffer_x (after r) = wrap64 (buffer_x st + x)
      /\ buffer_y (after r) = wrap64 (buffer_y st + y)
      /\ buffer_whl (after r) = wrap64 (buffer_whl st + wheel))
  /\ (reaches_update e x y wheel = true ->
      status r = - EFAULT
      /\ g (after r) = g (updata_params (ktime_get e) st)
      /\ (reload_due (ktime_get e) st = false -> g (after r) = g st)
      /\ (buffer_x (after r), buffer_y (after r), buffer_whl (after r)) = (0, 0, 0)).
Proof.
  intros r Hs. subst r. unfold reaches_update.
  destruct (status_cases e st x y wheel)
    as [(Hu & _) | [(Hu & Hc & _) | [(Hu & Hc & Ht & _) | (_ & _ & _ & H0)]]].
  - rewrite accelerate_busy in * by assumption. rewrite Hu.
    cbn [after carry_x carry_y carry_whl g g_AccelerationMode buffer_x buffer_y
           buffer_whl set_buffer andb].
    repeat split; try reflexivity; intros; discriminate.
  - rewrite accelerate_cast_fault in * by assumption. rewrite Hu, Hc.
    cbn [after carry_x carry_y carry_whl g g_AccelerationMode buffer_x buffer_y
           buffer_whl set_buffer andb].
    repeat split; try reflexivity; intros; discriminate.
  - rewrite accelerate_trapped in * by assumption. rewrite Hu, Hc.
    cbn [after status andb].
    destruct (polled_statics e st)
      as (Hg & Hm & _ & Hbx & Hby & Hbw & Hcx & Hcy & Hcw & _).
    rewrite Hg, Hm, Hbx, Hby, Hbw, Hcx, Hcy, Hcw.
    repeat split; try reflexivity; try (intros; discriminate).
    intros Hdue.
    destruct (updata_params_cases (ktime_get e) st) as [(_ & ->) | (Hd & _)];
      [reflexivity | congruence].
  - contradiction.
Qed.

(** C3, amended: a call that returns [-EFAULT] from the first trap (a cast
    did not check out) has added the sample to the buffers; one that returns
    it from the last trap leaves the buffers drained, so the sample and what
    was buffered before it are discarded. *)
Theorem numeric_fault_buffers e st x y wheel :
  let r := accelerate e st x y wheel in
  status r = - EFAULT ->
  (casts_ok x y wheel = false ->
   buffer_x (after r) = wrap64 (buffer_x st + x)
   /\ buffer_y (after r) = wrap64 (buffer_y st + y)
   /\ buffer_whl (after r) = wrap64 (buffer_whl st + wheel))
  /\ (casts_ok x y wheel = true ->
      trapped e st x y wheel = true
      /\ (buffer_x (after r), buffer_y (after r), buffer_whl (after r)) = (0, 0, 0)).
Proof.
  intros r Hs. subst r.
  destruct (status_cases e st x y wheel)
    as [(_ & H) | [(Hu & Hc & _) | [(Hu & Hc & Ht & _) | (_ & _ & _ & H)]]];
    try (rewrite H in Hs; discriminate Hs).
  - rewrite accelerate_cast_fault by assumption. rewrite Hc.
    split; [intros _; repeat split; reflexivity | intros; discriminate].
  - rewrite accelerate_trapped by assumption. rewrite Hc.
    split; [intros; discriminate|]. intros _. split; [exact Ht|].
    cbn [after].
    destruct (polled_statics e st) as (_ & _ & _ & -> & -> & -> & _).
    reflexivity.
Qed.

(** Fault symmetry: when a rounded output is the sentinel [INT_MIN], the call
    returns [-EFAULT] and the carries are those of before the call. *)
Theorem fault_symmetry e st x y wheel :
  irq_fpu_usable e = true ->
  casts_ok x y wheel = true ->
  Leet_round (unrounded_x e st x y) = INT_MIN
  \/ Leet_round (unrounded_y e st x y) = INT_MIN
  \/ Leet_round (unrounded_whl e st wheel) = INT_MIN ->
  let r := accelerate e st x y wheel in
  status r = - EFAULT
  /\ (carry_x (after r), carry_y (after r), carry_whl (after r))
     = (carry_x st, carry_y st, carry_whl st).
Proof.
  intros Hu Hc Hs r. subst r.
  assert (Ht : trapped e st x y wheel = true).
  { unfold trapped. rewrite !orb_true_iff, !Z.eqb_eq. tauto. }
  rewrite accelerate_trapped by assumption. cbn [status after].
  destruct (polled_statics e st) as (_ & _ & _ & _ & _ & _ & -> & -> & -> & _).
  split; reflexivity.
Qed.

End Failures.

(** C2, as stated, fails: with an update pending, a call stopped by the last
    trap returns [-EFAULT] after [updata_params] has re-parsed the
    parameters ([Sensitivity] went from 1 to 2, [Acceleration] from 0.04 to
    0), and the buffers have not grown. *)
Lemma failure_changes_parameters :
  let r := accelerate (lib := Ref.lib) (usable 5000000) pending (-1073741824) 0 0 in
  status r = - EFAULT
  /\ Sensitivity (g pending) = F32.of_Z 1
  /\ Sensitivity (g (after r)) = F32.of_Z 2
  /\ F32.eqb (Sensitivity (g (after r))) (Sensitivity (g pending)) = false
  /\ F32.eqb (Acceleration (g (after r))) (Acceleration (g pending)) = false
  /\ buffer_x pending = 0
  /\ buffer_x (after r) = 0.
Proof.
  vm_compute. repeat split; reflexivity.
Qed.

(** C3, as stated, fails: the call returns [-EFAULT] from the last trap and
    the sample is in no buffer afterwards. *)
Lemma final_trap_drops_sample :
  let r := accelerate (lib := Ref.lib) (usable 5000000) doubled (-1073741824) 0 0 in
  status r = - EFAULT
  /\ out_x r = INT_MIN
  /\ wrap64 (buffer_x doubled + -1073741824) = -1073741824
  /\ (buffer_x (after r), buffer_y (after r), buffer_whl (after r)) = (0, 0, 0).
Proof.
  vm_compute. repeat split; reflexivity.
Qed.

(** ** Parameter Store: the debounce *)

Section Debounce.

Context {lib : FloatLib}.

Lemma wrap64_id z : - 2 ^ 63 <= z < 2 ^ 63 -> wrap64 z = z.
Proof.
  intros H. unfold wrap64.
  rewrite Z.mod_small by lia. lia.
Qed.

Lemma reload_due_true now st :
  reload_due now st = true <-> g_update st <> 0 /\ g_next_update st <= now.
Proof.
  unfold reload_due. rewrite andb_true_iff, !negb_true_iff.
  rewrite Z.eqb_neq, Z.ltb_ge. reflexivity.
Qed.

Lemma reload_due_false now st :
  reload_due now st = false <-> g_update st = 0 \/ now < g_next_update st.
Proof.
  unfold reload_due. rewrite andb_false_iff, !negb_false_iff.
  rewrite Z.eqb_eq, Z.ltb_lt. reflexivity.
Qed.

(** A call that does not re-parse keeps the parameters and [g_next_update]. *)
Lemma accelerate_no_reload e st x y wheel :
  reaches_update e x y wheel && reload_due (ktime_get e) st = false ->
  g (after (accelerate e st x y wheel)) = g st
  /\ g_next_update (after (accelerate e st x y wheel)) = g_next_update st.
Proof.
  unfold reaches_update. intros H.
  destruct (irq_fpu_usable e) eqn:Hu.
  2:{ rewrite accelerate_busy by assumption. split; reflexivity. }
  destruct (casts_ok x y wheel) eqn:Hc.
  2:{ rewrite accelerate_cast_fault by assumption. split; reflexivity. }
  cbn [andb] in H.
  rewrite accelerate_guarded by assumption.
  assert (Hp : polled e st =
               set_frame (set_buffer st 0 0 0) (ktime_get e)
                 (frametime (ktime_get e) (set_buffer st 0 0 0))).
  { unfold polled.
    destruct (updata_params_cases (ktime_get e)
                (set_frame (set_buffer st 0 0 0) (ktime_get e)
                   (frametime (ktime_get e) (set_buffer st 0 0 0))))
      as [(_ & ->) | (Hd & _)]; [reflexivity|].
    unfold reload_due in *.
    cbn [g_update g_next_update set_frame set_buffer] in Hd. congruence. }
  destruct (trapped e st x y wheel); cbn [after]; rewrite Hp; split; reflexivity.
Qed.

(** A call that re-parses clears the flag and moves [g_next_update]; the parameters
    are re-parsed from their strings. *)
Lemma accelerate_reload e st x y wheel :
  reaches_update e x y wheel && reload_due (ktime_get e) st = true ->
  g_update (after (accelerate e st x y wheel)) = 0
  /\ g_next_update (after (accelerate e st x y wheel))
     = wrap64 (ktime_get e + 1000000000)
  /\ g (after (accelerate e st x y wheel)) = g (updata_params (ktime_get e) st).
Proof.
  unfold reaches_update. intros H.
  apply andb_true_iff in H as (H & Hd). apply andb_true_iff in H as (Hu & Hc).
  rewrite accelerate_guarded by assumption.
  pose proof (updata_params_frame (ktime_get e) st 0 0 0 (ktime_get e)
                (frametime (ktime_get e) (set_buffer st 0 0 0))) as (Hg & Hupd & Hn).
  fold (polled e st) in Hg, Hupd, Hn.
  assert (g_update (polled e st) = 0
          /\ g_next_update (polled e st) = wrap64 (ktime_get e + 1000000000))
    as (H0 & H1).
  { rewrite Hupd, Hn.
    destruct (updata_params_cases (ktime_get e) st) as [(Hd' & _) | (_ & ->)];
      [congruence | split; reflexivity]. }
  destruct (trapped e st x y wheel);
    cbn [after g_update g_next_update g set_carry]; auto.
Qed.

Lemma reload_times_spaced st evs :
  clock_ok evs -> spaced_from (g_next_update st) (reload_times st evs).
Proof.
  intros Hclock. revert st.
  induction Hclock as [|ev evs Hev _ IH]; intros st; [exact I|].
  destruct ev as [u m p|e x y wheel]; cbn [reload_times].
  - exact (IH (store st u m p)).
  - cbv zeta.
    destruct (reaches_update e x y wheel && reload_due (ktime_get e) st) eqn:Hd.
    + destruct (accelerate_reload e st x y wheel Hd) as (_ & Hn & _).
      apply andb_true_iff in Hd as (_ & Hd).
      apply reload_due_true in Hd as (_ & Hle).
      cbn [spaced_from]. split; [exact Hle|].
      specialize (IH (after (accelerate e st x y wheel))).
      rewrite Hn, wrap64_id in IH by lia. exact IH.
    + destruct (accelerate_no_reload e st x y wheel Hd) as (_ & Hn).
      specialize (IH (after (accelerate e st x y wheel))).
      rewrite Hn in IH. exact IH.
Qed.

Lemma spaced_from_weaken b b' ts :
  b' <= b -> spaced_from b ts -> spaced_from b' ts.
Proof.
  destruct ts as [|t ts]; cbn [spaced_from]; [auto|].
  intros Hb (Hle & Hs). split; [lia | exact Hs].
Qed.

Lemma spaced_from_nth b ts (j : nat) tj :
  spaced_from b ts -> nth_error ts j = Some tj -> b <= tj.
Proof.
  revert b ts. induction j as [|j IH]; intros b [|t ts] Hs Hj;
    try discriminate Hj; cbn [nth_error spaced_from] in *.
  - injection Hj as <-. tauto.
  - destruct Hs as (Hle & Hs). specialize (IH _ _ Hs Hj). lia.
Qed.

Lemma spaced_from_pairs b ts (i j : nat) ti tj :
  spaced_from b ts -> (i < j)%nat ->
  nth_error ts i = Some ti -> nth_error ts j = Some tj ->
  ti + 1000000000 <= tj.
Proof.
  revert b ts j. induction i as [|i IH]; intros b [|t ts] j Hs Hij Hi Hj;
    try discriminate Hi; destruct j as [|j]; try lia;
    cbn [nth_error spaced_from] in *; destruct Hs as (Hle & Hs).
  - injection Hi as <-. exact (spaced_from_nth _ _ _ _ Hs Hj).
  - apply (IH _ _ j Hs); [lia | assumption | assumption].
Qed.

(** C8: [updata_params] does nothing when the flag is unset or [now] is
    before the next allowed time; when it applies it clears the flag and
    sets the next allowed time to [now] plus one second; a call that does
    not apply it leaves the parameters as they are; so along any execution
    two applied reloads are at least one second apart. *)
Theorem reload_debounce :
  (forall now st,
      g_update st = 0 \/ now < g_next_update st -> updata_params now st = st)
  /\ (forall now st,
         g_update st <> 0 -> g_next_update st <= now ->
         g_update (updata_params now st) = 0
         /\ g_next_update (updata_params now st) = wrap64 (now + 1000000000)
         /\ (- 2 ^ 63 <= now < 2 ^ 63 - 1000000000 ->
             g_next_update (updata_params now st) = now + 1000000000))
  /\ (forall e st x y wheel,
         reaches_update e x y wheel && reload_due (ktime_get e) st = false ->
         g (after (accelerate e st x y wheel)) = g st)
  /\ (forall st evs,
         clock_ok evs ->
         forall (i j : nat) ti tj,
           (i < j)%nat ->
           nth_error (reload_times st evs) i = Some ti ->
           nth_error (reload_times st evs) j = Some tj ->
           ti + 1000000000 <= tj).
Proof.
  split; [|split; [|split]].
  - intros now st H. apply reload_due_false in H.
    destruct (updata_params_cases now st) as [(_ & E) | (Hd & _)];
      [exact E | congruence].
  - intros now st Hu Hn.
    assert (Hd : reload_due now st = true) by (apply reload_due_true; auto).
    destruct (updata_params_cases now st) as [(Hd' & _) | (_ & ->)];
      [congruence|].
    cbn [g_update g_next_update set_params].
    split; [reflexivity|]. split; [reflexivity|].
    intros Hclock. apply wrap64_id. lia.
  - intros e st x y wheel H. apply (accelerate_no_reload e st x y wheel H).
  - intros st evs Hclock i j ti tj Hij Hi Hj.
    exact (spaced_from_pairs _ _ i j ti tj (reload_times_spaced st evs Hclock) Hij Hi Hj).
Qed.

End Debounce.

(** ** SensitivityCap is parsed and never read *)

Section Unobservable.

Context {lib : FloatLib}.

(** What two states with the same image agree on. *)
Lemma erase_inv s1 s2 :
  erase s1 = erase s2 ->
  (g_update s1 = g_update s2
   /\ g_AccelerationMode s1 = g_AccelerationMode s2
   /\ g_next_update s1 = g_next_update s2
   /\ last_ms s1 = last_ms s2
   /\ last s1 = last s2)
  /\ (buffer_x s1 = buffer_x s2 /\ buffer_y s1 = buffer_y s2
      /\ buffer_whl s1 = buffer_whl s2)
  /\ (carry_x s1 = carry_x s2 /\ carry_y s1 = carry_y s2
      /\ carry_whl s1 = carry_whl s2)
  /\ (SpeedCap (g s1) = SpeedCap (g s2)
      /\ Sensitivity (g s1) = Sensitivity (g s2)
      /\ Acceleration (g s1) = Acceleration (g s2)
      /\ Offset (g s1) = Offset (g s2)
      /\ Exponent (g s1) = Exponent (g s2)
      /\ Midpoint (g s1) = Midpoint (g s2)
      /\ ScrollsPerTick (g s1) = ScrollsPerTick (g s2))
  /\ (SpeedCap (g_param s1) = SpeedCap (g_param s2)
      /\ Sensitivity (g_param s1) = Sensitivity (g_param s2)
      /\ Acceleration (g_param s1) = Acceleration (g_param s2)
      /\ Offset (g_param s1) = Offset (g_param s2)
      /\ Exponent (g_param s1) = Exponent (g_param s2)
      /\ Midpoint (g_param s1) = Midpoint (g_param s2)
      /\ ScrollsPerTick (g_param s1) = ScrollsPerTick (g_param s2)).
Proof.
  intros H.
  repeat split;
    first
      [ exact (f_equal g_update H) | exact (f_equal g_AccelerationMode H)
      | exact (f_equal g_next_update H) | exact (f_equal last_ms H)
      | exact (f_equal last H) | exact (f_equal buffer_x H)
      | exact (f_equal buffer_y H) | exact (f_equal buffer_whl H)
      | exact (f_equal carry_x H) | exact (f_equal carry_y H)
      | exact (f_equal carry_whl H)
      | exact (f_equal (fun s => SpeedCap (g s)) H)
      | exact (f_equal (fun s => Sensitivity (g s)) H)
      | exact (f_equal (fun s => Acceleration (g s)) H)
      | exact (f_equal (fun s => Offset (g s)) H)
      | exact (f_equal (fun s => Exponent (g s)) H)
      | exact (f_equal (fun s => Midpoint (g s)) H)
      | exact (f_equal (fun s => ScrollsPerTick (g s)) H)
      | exact (f_equal (fun s => SpeedCap (g_param s)) H)
      | exact (f_equal (fun s => Sensitivity (g_param s)) H)
      | exact (f_equal (fun s => Acceleration (g_param s)) H)
      | exact (f_equal (fun s => Offset (g_param s)) H)
      | exact (f_equal (fun s => Exponent (g_param s)) H)
      | exact (f_equal (fun s => Midpoint (g_param s)) H)
      | exact (f_equal (fun s => ScrollsPerTick (g_param s)) H) ].
Qed.

(** Conversely, states that agree on all of it have the same image. *)
Lemma erase_intro s1 s2 :
  g_update s1 = g_update s2 ->
  g_AccelerationMode s1 = g_AccelerationMode s2 ->
  without_cap F32.zero (g s1) = without_cap F32.zero (g s2) ->
  without_cap EmptyString (g_param s1) = without_cap EmptyString (g_param s2) ->
  g_next_update s1 = g_next_update s2 ->
  buffer_x s1 = buffer_x s2 -> buffer_y s1 = buffer_y s2 ->
  buffer_whl s1 = buffer_whl s2 ->
  carry_x s1 = carry_x s2 -> carry_y s1 = carry_y s2 ->
  carry_whl s1 = carry_whl s2 ->
  last_ms s1 = last_ms s2 -> last s1 = last s2 ->
  erase s1 = erase s2.
Proof.
  intros. unfold erase. congruence.
Qed.

Ltac erase_facts H :=
  let F := fresh "F" in
  pose proof (erase_inv _ _ H) as F;
  destruct F as ((? & ? & ? & ? & ?) & (? & ? & ?) & (? & ? & ?)
                 & (? & ? & ? & ? & ? & ? & ?) & (? & ? & ? & ? & ? & ? & ?)).

Ltac erase_rewrite :=
  repeat match goal with
         | E : ?a = ?b |- _ => rewrite E
         end.

Lemma set_buffer_erase s1 s2 bx by_ bw :
  erase s1 = erase s2 ->
  erase (set_buffer s1 bx by_ bw) = erase (set_buffer s2 bx by_ bw).
Proof.
  intros H. pose proof (f_equal g H) as Hg. pose proof (f_equal g_param H) as Hp.
  erase_facts H. apply erase_intro; cbn [g_update g_AccelerationMode g g_param
    g_next_update buffer_x buffer_y buffer_whl carry_x carry_y carry_whl last_ms
    last set_buffer]; first [assumption | reflexivity].
Qed.

Lemma set_frame_erase s1 s2 now ms :
  erase s1 = erase s2 ->
  erase (set_frame s1 now ms) = erase (set_frame s2 now ms).
Proof.
  intros H. pose proof (f_equal g H) as Hg. pose proof (f_equal g_param H) as Hp.
  erase_facts H. apply erase_intro; cbn [g_update g_AccelerationMode g g_param
    g_next_update buffer_x buffer_y buffer_whl carry_x carry_y carry_whl last_ms
    last set_frame]; first [assumption | reflexivity].
Qed.

Lemma set_carry_erase s1 s2 cx cy cw :
  erase s1 = erase s2 ->
  erase (set_carry s1 cx cy cw) = erase (set_carry s2 cx cy cw).
Proof.
  intros H. pose proof (f_equal g H) as Hg. pose proof (f_equal g_param H) as Hp.
  erase_facts H. apply erase_intro; cbn [g_update g_AccelerationMode g g_param
    g_next_update buffer_x buffer_y buffer_whl carry_x carry_y carry_whl last_ms
    last set_carry]; first [assumption | reflexivity].
Qed.

Lemma updata_params_erase s1 s2 now :
  erase s1 = erase s2 ->
  erase (updata_params now s1) = erase (updata_params now s2).
Proof.
  intros H. pose proof (f_equal g_param H) as Hp.
  pose proof (erase_inv _ _ H)
    as ((Hu & Hm & Hn & Hms & Hl) & (Hbx & Hby & Hbw) & (Hcx & Hcy & Hcw)
        & (G1 & G2 & G3 & G4 & G5 & G6 & G7) & (P1 & P2 & P3 & P4 & P5 & P6 & P7)).
  unfold updata_params. rewrite Hu, Hn.
  destruct (g_update s2 =? 0); [exact H|].
  destruct (now <? g_next_update s2); [exact H|].
  apply erase_intro; cbn [g_update g_AccelerationMode g g_param
    g_next_update buffer_x buffer_y buffer_whl carry_x carry_y carry_whl last_ms
    last set_params]; try first [assumption | reflexivity].
  unfold without_cap.
  cbn [SpeedCap Sensitivity Acceleration SensitivityCap Offset Exponent Midpoint
         ScrollsPerTick].
  rewrite G1, G2, G3, G4, G5, G6, G7, P1, P2, P3, P4, P5, P6, P7. reflexivity.
Qed.

Lemma frametime_erase s1 s2 now :
  erase s1 = erase s2 -> frametime now s1 = frametime now s2.
Proof.
  intros H. erase_facts H. unfold frametime. erase_rewrite. reflexivity.
Qed.

Lemma polled_erase s1 s2 e :
  erase s1 = erase s2 -> erase (polled e s1) = erase (polled e s2).
Proof.
  intros H. unfold polled. apply updata_params_erase.
  rewrite !frametime_set_buffer, (frametime_erase s1 s2 _ H).
  apply set_frame_erase, set_buffer_erase, H.
Qed.

Lemma locals_erase s1 s2 e x y wheel :
  erase s1 = erase s2 ->
  unrounded_x e s1 x y = unrounded_x e s2 x y
  /\ unrounded_y e s1 x y = unrounded_y e s2 x y
  /\ unrounded_whl e s1 wheel = unrounded_whl e s2 wheel.
Proof.
  intros H. pose proof (polled_erase s1 s2 e H) as Hp.
  pose proof (frametime_erase s1 s2 (ktime_get e) H) as Hf.
  erase_facts H. erase_facts Hp.
  unfold unrounded_x, unrounded_y, unrounded_whl, gain_at, rate_at, curve, rate_of.
  rewrite !frametime_set_buffer.
  erase_rewrite. repeat split; reflexivity.
Qed.

(** One call: the same return value, the same outputs, and statics that
    again differ at most in the two [SensitivityCap] variables. *)
Lemma accelerate_erase s1 s2 e x y wheel :
  erase s1 = erase s2 ->
  status (accelerate e s1 x y wheel) = status (accelerate e s2 x y wheel)
  /\ out_x (accelerate e s1 x y wheel) = out_x (accelerate e s2 x y wheel)
  /\ out_y (accelerate e s1 x y wheel) = out_y (accelerate e s2 x y wheel)
  /\ out_wheel (accelerate e s1 x y wheel) = out_wheel (accelerate e s2 x y wheel)
  /\ erase (after (accelerate e s1 x y wheel))
     = erase (after (accelerate e s2 x y wheel)).
Proof.
  intros H.
  pose proof (erase_inv _ _ H) as (_ & (Hbx & Hby & Hbw) & _).
  destruct (irq_fpu_usable e) eqn:Hu.
  2:{ rewrite !accelerate_busy by assumption. cbn [status out_x out_y out_wheel after].
      rewrite Hbx, Hby, Hbw. repeat split; try reflexivity.
      apply set_buffer_erase, H. }
  destruct (casts_ok x y wheel) eqn:Hc.
  2:{ rewrite !accelerate_cast_fault by assumption.
      cbn [status out_x out_y out_wheel after].
      rewrite Hbx, Hby, Hbw. repeat split; try reflexivity.
      apply set_buffer_erase, H. }
  rewrite !accelerate_guarded by assumption.
  destruct (locals_erase s1 s2 e x y wheel H) as (Hx & Hy & Hw).
  unfold trapped. rewrite Hx, Hy, Hw.
  destruct ((Leet_round (unrounded_x e s2 x y) =? INT_MIN)
            || (Leet_round (unrounded_y e s2 x y) =? INT_MIN)
            || (Leet_round (unrounded_whl e s2 wheel) =? INT_MIN));
    cbn [status out_x out_y out_wheel after]; repeat split; try reflexivity.
  - apply polled_erase, H.
  - apply set_carry_erase, polled_erase, H.
Qed.

Lemma store_erase s1 s2 u m p1 p2 :
  erase s1 = erase s2 ->
  without_cap EmptyString p1 = without_cap EmptyString p2 ->
  erase (store s1 u m p1) = erase (store s2 u m p2).
Proof.
  intros H Hp. pose proof (f_equal g H) as Hg. erase_facts H.
  apply erase_intro; cbn [g_update g_AccelerationMode g g_param
    g_next_update buffer_x buffer_y buffer_whl carry_x carry_y carry_whl last_ms
    last store]; first [assumption | reflexivity].
Qed.

(** C10: two executions that differ only in [SensitivityCap] (the live
    float, its string, or the strings written to it later) return the same
    status and outputs at every call and end with the same carries and
    buffers, indeed the same statics but for the two [SensitivityCap]
    variables; a reload does parse the string into [g_SensitivityCap]. *)
Theorem sensitivity_cap_unobservable s1 s2 evs1 evs2 :
  erase s1 = erase s2 ->
  Forall2 same_event evs1 evs2 ->
  returns s1 evs1 = returns s2 evs2
  /\ erase (run s1 evs1) = erase (run s2 evs2)
  /\ (carry_x (run s1 evs1), carry_y (run s1 evs1), carry_whl (run s1 evs1))
     = (carry_x (run s2 evs2), carry_y (run s2 evs2), carry_whl (run s2 evs2))
  /\ (buffer_x (run s1 evs1), buffer_y (run s1 evs1), buffer_whl (run s1 evs1))
     = (buffer_x (run s2 evs2), buffer_y (run s2 evs2), buffer_whl (run s2 evs2))
  /\ (forall now st,
         reload_due now st = true ->
         SensitivityCap (g (updata_params now st))
         = PARAM_UPDATE (SensitivityCap (g_param st)) (SensitivityCap (g st))).
Proof.
  intros H Hevs.
  assert (Hrun : returns s1 evs1 = returns s2 evs2
                 /\ erase (run s1 evs1) = erase (run s2 evs2)).
  { clear - H Hevs. revert s1 s2 H.
    induction Hevs as [|ev1 ev2 evs1 evs2 Hev _ IH]; intros s1 s2 H.
    - split; [reflexivity | exact H].
    - destruct Hev as [u m p1 p2 Hp | e x y wheel]; unfold run in *;
        cbn [returns fold_left step].
      + apply IH, store_erase; assumption.
      + cbv zeta.
        destruct (accelerate_erase s1 s2 e x y wheel H) as (-> & -> & -> & -> & Ha).
        destruct (IH _ _ Ha) as (-> & ->). split; reflexivity. }
  destruct Hrun as (Hret & Her).
  pose proof (erase_inv _ _ Her)
    as (_ & (Hbx & Hby & Hbw) & (Hcx & Hcy & Hcw) & _).
  rewrite Hbx, Hby, Hbw, Hcx, Hcy, Hcw.
  repeat split; try assumption.
  intros now st Hd.
  destruct (updata_params_cases now st) as [(Hd' & _) | (_ & ->)];
    [congruence | reflexivity].
Qed.

End Unobservable.

(** ** Event Accumulator *)

Section Buffering.

Context {lib : FloatLib}.

Lemma wrap64_add_l a b : wrap64 (wrap64 a + b) = wrap64 (a + b).
Proof.
  unfold wrap64. f_equal.
  replace ((a + 2 ^ 63) mod 2 ^ 64 - 2 ^ 63 + b + 2 ^ 63)
    with ((a + 2 ^ 63) mod 2 ^ 64 + b) by lia.
  rewrite Zplus_mod_idemp_l. f_equal. lia.
Qed.

(** Buffering completeness: samples that arrive while the FPU is not usable
    add up in the buffers (as 64-bit sums), whatever their number, and leave
    the carries alone; the next usable call starts from that sum. *)
Theorem buffering_completeness st now samples :
  let st' := run st (busy_calls now samples) in
  wrap64 (buffer_x st') = wrap64 (buffer_x st + total (fun s => fst (fst s)) samples)
  /\ wrap64 (buffer_y st') = wrap64 (buffer_y st + total (fun s => snd (fst s)) samples)
  /\ wrap64 (buffer_whl st') = wrap64 (buffer_whl st + total snd samples)
  /\ (carry_x st', carry_y st', carry_whl st') = (carry_x st, carry_y st, carry_whl st)
  /\ returns st (busy_calls now samples)
     = map (fun s => (- EBUSY, s)) samples.
Proof.
  revert st. induction samples as [|[[x y] wheel] samples IH]; intros st.
  - cbn. rewrite !Z.add_0_r. repeat split; reflexivity.
  - unfold run in *. cbn [busy_calls map fold_left step returns total fold_right fst snd].
    fold (busy_calls now samples).
    rewrite accelerate_busy by reflexivity. cbn [after status out_x out_y out_wheel].
    destruct (IH (set_buffer st (wrap64 (buffer_x st + x)) (wrap64 (buffer_y st + y))
                    (wrap64 (buffer_whl st + wheel)))) as (Hx & Hy & Hw & Hc & Hr).
    cbv zeta in *. cbn [buffer_x buffer_y buffer_whl carry_x carry_y carry_whl set_buffer] in *.
    rewrite Hx, Hy, Hw, Hc, Hr, !wrap64_add_l.
    repeat split; f_equal; unfold total; lia.
Qed.

End Buffering.

(** ** Carry Accumulator: conservation *)

Section Conserved.

Context {lib : FloatLib}.

(** A successful call leaves the rounded output in [*x] and the remainder in
    the carry. *)
Lemma accelerate_axis a e st x y wheel :
  status (accelerate e st x y wheel) = 0 ->
  out_of a (accelerate e st x y wheel) = Leet_round (unrounded_of a e st x y)
  /\ carry_of a (after (accelerate e st x y wheel))
     = F32.sub (unrounded_of a e st x y)
         (F32.of_Z (Leet_round (unrounded_of a e st x y))).
Proof.
  intros Hs. destruct (status_zero_done _ _ _ _ _ Hs) as (Hu & Hc & Ht).
  rewrite accelerate_ok by assumption.
  destruct a; split; reflexivity.
Qed.

Lemma exact_cycle_step a e st x y wheel :
  status (accelerate e st x y wheel) = 0 ->
  exact_cycle a e st x y = true ->
  (inject_Z (out_of a (accelerate e st x y wheel))
   + F32.to_Q (carry_of a (after (accelerate e st x y wheel)))
   == ideal a e st x y + F32.to_Q (carry_of a st))%Q
  /\ (Qabs (F32.to_Q (carry_of a (after (accelerate e st x y wheel)))) <= 1 # 2)%Q.
Proof.
  intros Hs Hex.
  destruct (accelerate_axis a e st x y wheel Hs) as (-> & ->).
  unfold exact_cycle in Hex. cbv zeta in Hex.
  repeat (apply andb_true_iff in Hex; destruct Hex as (Hex & ?)).
  repeat match goal with
         | E : Qeq_bool _ _ = true |- _ => apply Qeq_bool_iff in E
         | E : Qle_bool _ _ = true |- _ => apply Qle_bool_iff in E
         end.
  match goal with
  | E1 : (F32.to_Q (unrounded_of _ _ _ _ _) == _)%Q,
    E2 : (F32.to_Q (F32.sub _ _) == _)%Q,
    E3 : (Qabs _ <= _)%Q |- _ =>
      split; [rewrite E2, E1; ring | rewrite E2; exact E3]
  end.
Qed.

Lemma conservation_run a st evs :
  successful st evs = true ->
  exact a st evs = true ->
  (inject_Z (sum_out a st evs) + F32.to_Q (carry_of a (run st evs))
   == sum_ideal a st evs + F32.to_Q (carry_of a st))%Q
  /\ ((Qabs (F32.to_Q (carry_of a st)) <= 1 # 2)%Q ->
      (Qabs (F32.to_Q (carry_of a (run st evs))) <= 1 # 2)%Q).
Proof.
  revert st. induction evs as [|ev evs IH]; intros st Hs Hex.
  - cbn [sum_out sum_ideal run fold_left]. split; [ring | auto].
  - destruct ev as [u m p | e x y wheel]; unfold run in *;
      cbn [successful exact sum_out sum_ideal fold_left step] in *.
    + destruct (IH (store st u m p) Hs Hex) as (Hsum & Hb).
      destruct a; exact (conj Hsum Hb).
    + cbv zeta in *.
      apply andb_true_iff in Hs as (H0 & Hs). apply Z.eqb_eq in H0.
      apply andb_true_iff in Hex as (Hc & Hex).
      destruct (exact_cycle_step a e st x y wheel H0 Hc) as (Hstep & Hhalf).
      destruct (IH _ Hs Hex) as (Hsum & Hb).
      split; [|intros _; exact (Hb Hhalf)].
      rewrite inject_Z_plus.
      set (o := inject_Z (out_of a (accelerate e st x y wheel))) in *.
      set (c1 := F32.to_Q (carry_of a (after (accelerate e st x y wheel)))) in *.
      set (S1 := inject_Z (sum_out a (after (accelerate e st x y wheel)) evs)) in *.
      set (I1 := sum_ideal a (after (accelerate e st x y wheel)) evs) in *.
      set (cn := F32.to_Q (carry_of a (fold_left step evs (after (accelerate e st x y wheel))))) in *.
      lra.
Qed.

(** C6, amended: over any execution whose calls all succeed and whose carry
    arithmetic commits no single precision rounding error (each unrounded
    output is exactly sample * gain * Sensitivity + carry, each new carry is
    exactly the unrounded output minus the rounded one, and [Leet_round] is
    off by at most 1/2), the sum of the rounded outputs plus the final carry
    equals the sum of the ideal outputs plus the initial carry; so, from a
    carry of at most 1/2, the two sums stay within one unit of each other
    however long the execution. *)
Theorem carry_conservation a st evs :
  successful st evs = true ->
  exact a st evs = true ->
  (Qabs (F32.to_Q (carry_of a st)) <= 1 # 2)%Q ->
  (inject_Z (sum_out a st evs) + F32.to_Q (carry_of a (run st evs))
   == sum_ideal a st evs + F32.to_Q (carry_of a st))%Q
  /\ (Qabs (inject_Z (sum_out a st evs) - sum_ideal a st evs) <= 1)%Q.
Proof.
  intros Hs Hex H0.
  destruct (conservation_run a st evs Hs Hex) as (Hsum & Hb).
  specialize (Hb H0). split; [exact Hsum|].
  apply Qabs_Qle_condition in H0. apply Qabs_Qle_condition in Hb.
  apply Qabs_Qle_condition.
  set (c0 := F32.to_Q (carry_of a st)) in *.
  set (cn := F32.to_Q (carry_of a (run st evs))) in *.
  set (So := inject_Z (sum_out a st evs)) in *.
  set (Si := sum_ideal a st evs) in *.
  split; lra.
Qed.

End Conserved.

(** C6, as stated, fails: ten successful calls with the gain fixed at 1 and
    the parameters fixed ([Sensitivity] 1/4, no update pending); each carry
    of 1/4 left by a slow sample is absorbed when it is added to the 2^24 of
    the next fast one, and after five such pairs the rounded outputs sum to
    5/4 less than the ideal ones. *)
Lemma carry_lost_in_rounding :
  successful (lib := Ref.lib) quarter slow_fast = true
  /\ gains (lib := Ref.lib) quarter slow_fast = repeat (F32.of_Z 1) 10
  /\ g_update quarter = 0
  /\ g (run (lib := Ref.lib) quarter slow_fast) = g quarter
  /\ Sensitivity (g quarter) = F32.div (F32.of_Z 1) (F32.of_Z 4)
  /\ sum_out (lib := Ref.lib) AxisX quarter slow_fast = 83886080
  /\ (sum_ideal (lib := Ref.lib) AxisX quarter slow_fast == 335544325 # 4)%Q
  /\ (1 < Qabs (inject_Z (sum_out (lib := Ref.lib) AxisX quarter slow_fast)
                - sum_ideal (lib := Ref.lib) AxisX quarter slow_fast))%Q.
Proof.
  vm_compute. repeat split; reflexivity.
Qed.

(** * Further properties of accel.c *)

(** ** The frame time as a divisor *)

Section FrameTimeRange.

Context {lib : FloatLib}.

Lemma frametime_not_below_one now st :
  F32.ltb (last_ms st) (F32.of_Z 1) = false ->
  F32.ltb (frametime now st) (F32.of_Z 1) = false.
Proof.
  intros Hinv. unfold frametime. cbv zeta.
  destruct (F32.ltb (F32.of_Z (Z.quot (wrap64 (now - last st)) (1000 * 1000)))
              (F32.of_Z 1)) eqn:E1.
  - destruct (F32.ltb (F32.of_Z 100) (last_ms st));
      [vm_compute; reflexivity | exact Hinv].
  - destruct (F32.ltb (F32.of_Z 100)
                (F32.of_Z (Z.quot (wrap64 (now - last st)) (1000 * 1000))));
      [vm_compute; reflexivity | exact E1].
Qed.

Lemma not_below_one_nonzero (f : float) :
  F32.ltb f (F32.of_Z 1) = false -> F32.eqb f (F32.of_Z 0) = false.
Proof.
  change (F32.of_Z 0) with (S754_zero false).
  destruct f as [s|s| |s m e]; intros H.
  - exfalso. destruct s; vm_compute in H; discriminate H.
  - destruct s; reflexivity.
  - reflexivity.
  - destruct s; reflexivity.
Qed.

Lemma reachable_not_below_one st :
  reachable st -> F32.ltb (last_ms st) (F32.of_Z 1) = false.
Proof.
  induction 1 as [|st ev Hr IH].
  - vm_compute. reflexivity.
  - destruct ev as [u m p|e x y wheel]; cbn [step].
    + exact IH.
    + destruct (accelerate_last_ms e st x y wheel) as [-> | ->].
      * exact IH.
      * apply frametime_not_below_one, IH.
Qed.

Lemma reachable_run st evs : reachable st -> reachable (run st evs).
Proof.
  revert st. unfold run.
  induction evs as [|ev evs IH]; intros st H; cbn [fold_left]; [exact H|].
  apply IH, reachable_step, H.
Qed.

(** In every state an execution from the initial statics can reach, the
    stored frame time is neither below 1 nor above 100, and so is the frame
    time of the next call, whatever its timestamp; in particular [speed /= ms]
    never divides by zero. *)
Theorem frame_time_in_range st :
  reachable st ->
  F32.ltb (last_ms st) (F32.of_Z 1) = false
  /\ F32.ltb (F32.of_Z 100) (last_ms st) = false
  /\ (forall now,
         F32.ltb (frametime now st) (F32.of_Z 1) = false
         /\ F32.ltb (F32.of_Z 100) (frametime now st) = false
         /\ F32.eqb (frametime now st) (F32.of_Z 0) = false).
Proof.
  intros Hr.
  pose proof (reachable_not_below_one st Hr) as H1.
  pose proof (reachable_last_ms st Hr) as H100.
  split; [exact H1|]. split; [exact H100|].
  intros now.
  pose proof (frametime_not_below_one now st H1) as F1.
  split; [exact F1|]. split; [apply frametime_bounded|].
  apply not_below_one_nonzero, F1.
Qed.

End FrameTimeRange.

(** ** The last trap *)

Section Sentinel.

Context {lib : FloatLib}.

(** A call that returns 0 never hands [INT_MIN] to its caller, on any of the
    three outputs, and it has drained the buffers and stamped the time. *)
Theorem success_never_sentinel e st x y wheel :
  let r := accelerate e st x y wheel in
  status r = 0 ->
  out_x r <> INT_MIN /\ out_y r <> INT_MIN /\ out_wheel r <> INT_MIN
  /\ (buffer_x (after r), buffer_y (after r), buffer_whl (after r)) = (0, 0, 0)
  /\ last (after r) = ktime_get e.
Proof.
  intros r Hs. subst r.
  destruct (status_zero_done _ _ _ _ _ Hs) as (Hu & Hc & Ht).
  rewrite accelerate_ok by assumption.
  cbn [out_x out_y out_wheel after buffer_x buffer_y buffer_whl last set_carry].
  unfold trapped in Ht.
  apply orb_false_iff in Ht as (Ht & Hw). apply orb_false_iff in Ht as (Hx & Hy).
  apply Z.eqb_neq in Hx, Hy, Hw.
  destruct (polled_statics e st)
    as (_ & _ & _ & -> & -> & -> & _ & _ & _ & _ & ->).
  repeat split; assumption.
Qed.

End Sentinel.

(** ** The update flag *)

Section Flag.

Context {lib : FloatLib}.

(** Once [updata_params] has re-parsed, polling again changes nothing,
    whatever the time, until the flag is raised anew; polling twice at the
    same time is always the same as polling once. *)
Theorem updata_params_consumes_flag :
  (forall t1 t2 st,
      reload_due t1 st = true ->
      updata_params t2 (updata_params t1 st) = updata_params t1 st)
  /\ (forall t st, updata_params t (updata_params t st) = updata_params t st).
Proof.
  assert (A : forall t1 t2 st,
             reload_due t1 st = true ->
             updata_params t2 (updata_params t1 st) = updata_params t1 st).
  { intros t1 t2 st Hd.
    destruct (updata_params_cases t1 st) as [(Hd' & _) | (_ & E)];
      [congruence|].
    rewrite E.
    destruct (updata_params_cases t2
                (set_params st 0 (wrap64 (t1 + 1000000000))
                   {| SpeedCap := PARAM_UPDATE (SpeedCap (g_param st)) (SpeedCap (g st));
                      Sensitivity :=
                        PARAM_UPDATE (Sensitivity (g_param st)) (Sensitivity (g st));
                      Acceleration :=
                        PARAM_UPDATE (Acceleration (g_param st)) (Acceleration (g st));
                      SensitivityCap :=
                        PARAM_UPDATE (SensitivityCap (g_param st)) (SensitivityCap (g st));
                      Offset := PARAM_UPDATE (Offset (g_param st)) (Offset (g st));
                      Exponent := PARAM_UPDATE (Exponent (g_param st)) (Exponent (g st));
                      Midpoint := PARAM_UPDATE (Midpoint (g_param st)) (Midpoint (g st));
                      ScrollsPerTick :=
                        PARAM_UPDATE (ScrollsPerTick (g_param st))
                          (ScrollsPerTick (g st)) |}))
      as [(_ & ->) | (Hd2 & _)]; [reflexivity|].
    unfold reload_due in Hd2. cbn [g_update set_params] in Hd2.
    discriminate Hd2. }
  split; [exact A|].
  intros t st.
  destruct (reload_due t st) eqn:Hd; [apply A, Hd|].
  destruct (updata_params_cases t st) as [(_ & E) | (Hd' & _)];
    [rewrite !E; reflexivity | congruence].
Qed.

(** A call that does not re-parse leaves the flag as it found it. *)
Lemma accelerate_keeps_flag e st x y wheel :
  reaches_update e x y wheel && reload_due (ktime_get e) st = false ->
  g_update (after (accelerate e st x y wheel)) = g_update st.
Proof.
  unfold reaches_update. intros H.
  destruct (irq_fpu_usable e) eqn:Hu.
  2:{ rewrite accelerate_busy by assumption. reflexivity. }
  destruct (casts_ok x y wheel) eqn:Hc.
  2:{ rewrite accelerate_cast_fault by assumption. reflexivity. }
  cbn [andb] in H.
  rewrite accelerate_guarded by assumption.
  pose proof (updata_params_frame (ktime_get e) st 0 0 0 (ktime_get e)
                (frametime (ktime_get e) (set_buffer st 0 0 0))) as (_ & Hupd & _).
  fold (polled e st) in Hupd.
  assert (E : g_update (polled e st) = g_update st).
  { rewrite Hupd.
    destruct (updata_params_cases (ktime_get e) st) as [(_ & ->) | (Hd & _)];
      [reflexivity | congruence]. }
  destruct (trapped e st x y wheel); cbn [after g_update set_carry]; exact E.
Qed.

(** While no one raises the flag, no call re-parses: the live parameters
    stay what they were, whatever strings are written meanwhile. *)
Theorem parameters_need_the_flag st evs :
  g_update st = 0 ->
  quiet evs ->
  g (run st evs) = g st
  /\ g_update (run st evs) = 0
  /\ reload_times st evs = [].
Proof.
  intros H0 Hq. revert st H0.
  induction Hq as [|ev evs Hev _ IH]; intros st H0.
  - repeat split; [exact H0].
  - destruct ev as [u m p|e x y wheel]; unfold run in *;
      cbn [fold_left step reload_times].
    + apply (IH (store st u m p)). exact Hev.
    + cbv zeta.
      assert (Hd : reaches_update e x y wheel && reload_due (ktime_get e) st = false).
      { apply andb_false_iff. right. apply reload_due_false. left. exact H0. }
      rewrite Hd.
      destruct (accelerate_no_reload e st x y wheel Hd) as (Hg & _).
      pose proof (accelerate_keeps_flag e st x y wheel Hd) as Hf.
      rewrite H0 in Hf.
      destruct (IH _ Hf) as (A & B & C).
      rewrite A, Hg. repeat split; assumption.
Qed.

(** Each raising of the flag buys at most one re-parsing: an execution
    re-parses no more often than the flag was raised, counting the flag it
    started with. *)
Theorem one_reload_per_request st evs :
  (List.length (reload_times st evs)
   <= (if (g_update st =? 0)%Z then 0 else 1) + requests evs)%nat.
Proof.
  revert st. induction evs as [|ev evs IH]; intros st.
  - cbn. lia.
  - destruct ev as [u m p|e x y wheel]; cbn [reload_times requests].
    + specialize (IH (store st u m p)). cbn [g_update store] in IH.
      destruct (u =? 0); destruct (g_update st =? 0); lia.
    + cbv zeta.
      specialize (IH (after (accelerate e st x y wheel))).
      destruct (reaches_update e x y wheel && reload_due (ktime_get e) st) eqn:Hd.
      * destruct (accelerate_reload e st x y wheel Hd) as (Hf & _).
        rewrite Hf in IH. cbn [Z.eqb] in IH.
        apply andb_true_iff in Hd as (_ & Hd).
        apply reload_due_true in Hd as (Hne & _).
        apply Z.eqb_neq in Hne. rewrite Hne. cbn [List.length]. lia.
      * rewrite (accelerate_keeps_flag e st x y wheel Hd) in IH. exact IH.
Qed.

(** The tie rule of the debounce: after a re-parsing at [t], with the flag
    raised again, a poll one nanosecond short of a second does nothing and a
    poll exactly one second later re-parses. *)
Theorem debounce_boundary st t u m p :
  reload_due t st = true ->
  - 2 ^ 63 <= t < 2 ^ 63 - 1000000000 ->
  u <> 0 ->
  let st1 := store (updata_params t st) u m p in
  updata_params (t + 1000000000 - 1) st1 = st1
  /\ reload_due (t + 1000000000) st1 = true
  /\ g_update (updata_params (t + 1000000000) st1) = 0
  /\ g_next_update (updata_params (t + 1000000000) st1)
     = wrap64 (t + 1000000000 + 1000000000).
Proof.
  intros Hd Hclock Hu st1.
  assert (Hn : g_next_update st1 = t + 1000000000).
  { subst st1. cbn [g_next_update store].
    destruct (updata_params_cases t st) as [(Hd' & _) | (_ & ->)];
      [congruence|].
    cbn [g_next_update set_params]. apply wrap64_id. lia. }
  assert (Hf : g_update st1 = u) by reflexivity.
  assert (D1 : reload_due (t + 1000000000 - 1) st1 = false).
  { apply reload_due_false. right. lia. }
  assert (D2 : reload_due (t + 1000000000) st1 = true).
  { apply reload_due_true. split; [congruence | lia]. }
  split.
  { destruct (updata_params_cases (t + 1000000000 - 1) st1) as [(_ & E) | (D & _)];
      [exact E | congruence]. }
  split; [exact D2|].
  destruct (updata_params_cases (t + 1000000000) st1) as [(D & _) | (_ & ->)];
    [congruence|].
  split; reflexivity.
Qed.

End Flag.

(** ** The wheel carry *)

Section WheelCarry.

Context {lib : FloatLib}.

Lemma polled_carry_whl e st w :
  polled e (with_carry_whl st w) = with_carry_whl (polled e st) w.
Proof.
  unfold polled, updata_params.
  change (frametime (ktime_get e) (set_buffer (with_carry_whl st w) 0 0 0))
    with (frametime (ktime_get e) (set_buffer st 0 0 0)).
  cbn [g_update g_next_update g g_param set_frame set_buffer set_carry with_carry_whl].
  destruct (g_update st =? 0); [reflexivity|].
  destruct (ktime_get e <? g_next_update st); reflexivity.
Qed.

Lemma locals_carry_whl e st w x y wheel :
  unrounded_x e (with_carry_whl st w) x y = unrounded_x e st x y
  /\ unrounded_y e (with_carry_whl st w) x y = unrounded_y e st x y
  /\ unrounded_whl e (with_carry_whl st w) wheel = unrounded_whl e st wheel.
Proof.
  unfold unrounded_x, unrounded_y, unrounded_whl, gain_at, rate_at.
  rewrite polled_carry_whl.
  change (frametime (ktime_get e) (set_buffer (with_carry_whl st w) 0 0 0))
    with (frametime (ktime_get e) (set_buffer st 0 0 0)).
  repeat split; reflexivity.
Qed.

(** [carry_whl] is written and never read: with another wheel carry, a call
    returns the same status and the same three outputs; the statics after it
    agree but for [carry_whl], and agree altogether when the call returns
    0. *)
Theorem wheel_carry_never_read e st w x y wheel :
  let r1 := accelerate e st x y wheel in
  let r2 := accelerate e (with_carry_whl st w) x y wheel in
  status r2 = status r1
  /\ (out_x r2, out_y r2, out_wheel r2) = (out_x r1, out_y r1, out_wheel r1)
  /\ after r2 = with_carry_whl (after r1) (carry_whl (after r2))
  /\ (status r1 = 0 -> after r2 = after r1).
Proof.
  intros r1 r2. subst r1 r2.
  destruct (irq_fpu_usable e) eqn:Hu.
  2:{ rewrite !accelerate_busy by assumption.
      repeat split; try reflexivity. intros H; discriminate H. }
  destruct (casts_ok x y wheel) eqn:Hc.
  2:{ rewrite !accelerate_cast_fault by assumption.
      repeat split; try reflexivity. intros H; discriminate H. }
  rewrite !accelerate_guarded by assumption.
  destruct (locals_carry_whl e st w x y wheel) as (Hx & Hy & Hw).
  unfold trapped. rewrite Hx, Hy, Hw, polled_carry_whl.
  destruct ((Leet_round (unrounded_x e st x y) =? INT_MIN)
            || (Leet_round (unrounded_y e st x y) =? INT_MIN)
            || (Leet_round (unrounded_whl e st wheel) =? INT_MIN));
    cbn [status out_x out_y out_wheel after]; repeat split; try reflexivity.
  intros H; discriminate H.
Qed.

End WheelCarry.

(** ** The parameters' surface *)

Section Surface.

Context {lib : FloatLib}.

Lemma accelerate_surface e st x y wheel :
  g_AccelerationMode (after (accelerate e st x y wheel)) = g_AccelerationMode st
  /\ g_param (after (accelerate e st x y wheel)) = g_param st.
Proof.
  destruct (irq_fpu_usable e) eqn:Hu.
  2:{ rewrite accelerate_busy by assumption. split; reflexivity. }
  destruct (casts_ok x y wheel) eqn:Hc.
  2:{ rewrite accelerate_cast_fault by assumption. split; reflexivity. }
  rewrite accelerate_guarded by assumption.
  destruct (polled_statics e st) as (_ & Hm & Hp & _).
  destruct (trapped e st x y wheel);
    cbn [after g_AccelerationMode g_param set_carry]; split; assumption.
Qed.

(** [accelerate] never writes [AccelerationMode] or the parameter strings:
    after any execution they are what the last write left, or what they were
    if there was none. *)
Theorem surface_is_the_last_write st evs :
  (g_AccelerationMode (run st evs), g_param (run st evs))
  = match last_store evs with
    | Some w => w
    | None => (g_AccelerationMode st, g_param st)
    end.
Proof.
  revert st. unfold run.
  induction evs as [|ev evs IH]; intros st; cbn [fold_left last_store step];
    [reflexivity|].
  destruct ev as [u m p|e x y wheel].
  - rewrite IH. destruct (last_store evs); reflexivity.
  - rewrite IH. destruct (last_store evs); [reflexivity|].
    cbn [step].
    destruct (accelerate_surface e st x y wheel) as (-> & ->). reflexivity.
Qed.

End Surface.

(** ** Whole milliseconds *)

Section Milliseconds.

Context {lib : FloatLib}.

Lemma whole_ms_in_range q :
  1 <= q <= 100 ->
  F32.ltb (F32.of_Z q) (F32.of_Z 1) = false
  /\ F32.ltb (F32.of_Z 100) (F32.of_Z q) = false.
Proof.
  intros Hq.
  assert (All : forallb
                  (fun n => negb (F32.ltb (F32.of_Z (Z.of_nat n)) (F32.of_Z 1))
                            && negb (F32.ltb (F32.of_Z 100) (F32.of_Z (Z.of_nat n))))
                  (seq 1 100) = true) by (vm_compute; reflexivity).
  rewrite forallb_forall in All.
  specialize (All (Z.to_nat q)).
  rewrite Z2Nat.id in All by lia.
  assert (Hin : In (Z.to_nat q) (seq 1 100)) by (apply in_seq; lia).
  apply All in Hin. apply andb_true_iff in Hin as (A & B).
  apply negb_true_iff in A, B. split; assumption.
Qed.

(** When between 1 and 100 ms (and no more than an [s64]) have passed since
    the last stamped call, the frame time is that span in whole
    milliseconds, rounded down, whatever the stored fallback. *)
Theorem frametime_whole_milliseconds now st :
  1000000 <= now - last st < 101000000 ->
  frametime now st = F32.of_Z ((now - last st) / 1000000)
  /\ 1 <= (now - last st) / 1000000 <= 100.
Proof.
  intros H.
  assert (Hq : 1 <= (now - last st) / 1000000 <= 100).
  { split; [apply Z.div_le_lower_bound; lia|].
    assert ((now - last st) / 1000000 < 101) by (apply Z.div_lt_upper_bound; lia).
    lia. }
  split; [|exact Hq].
  unfold frametime. change (1000 * 1000) with 1000000.
  rewrite wrap64_id by lia.
  rewrite Z.quot_div_nonneg by lia.
  destruct (whole_ms_in_range _ Hq) as (A & B).
  cbv zeta. rewrite A, B. reflexivity.
Qed.

End Milliseconds.

(** ** The casts of the first trap *)

Section Casts.

Context {lib : FloatLib}.

Lemma digits2_pos_size p : digits2_pos p = Pos.size p.
Proof. induction p as [p IH|p IH|]; cbn; congruence. Qed.

Lemma digits2_pos_bounds p :
  2 ^ (Zpos (digits2_pos p) - 1) <= Zpos p < 2 ^ Zpos (digits2_pos p).
Proof.
  rewrite digits2_pos_size.
  pose proof (Pos.size_gt p) as Hgt. pose proof (Pos.size_le p) as Hle.
  apply Pos2Z.pos_lt_pos in Hgt. apply Pos2Z.pos_le_pos in Hle.
  rewrite Pos2Z.inj_pow in Hgt, Hle.
  change (Z.pos p~0) with (2 * Z.pos p) in Hle.
  split; [|exact Hgt].
  replace (2 ^ Zpos (Pos.size p)) with (2 * 2 ^ (Zpos (Pos.size p) - 1)) in Hle.
  - lia.
  - rewrite <- Z.pow_succ_r by lia. f_equal. lia.
Qed.

Lemma iter_xO m k :
  Zpos (Pos.iter xO m k) = Zpos m * 2 ^ Zpos k
  /\ digits2_pos (Pos.iter xO m k) = (digits2_pos m + k)%positive.
Proof.
  induction k as [|k IH] using Pos.peano_ind.
  - cbn [Pos.iter]. split; [rewrite Pos2Z.inj_xO; lia | cbn; lia].
  - rewrite Pos.iter_succ. destruct IH as (IH1 & IH2).
    rewrite Pos2Z.inj_xO, IH1. cbn [digits2_pos]. rewrite IH2.
    rewrite Pos2Z.inj_succ, Z.pow_succ_r by lia. split; lia.
Qed.

Lemma binary_round_aux_canonical s mz ez :
  Zpos (digits2_pos mz) = 24 ->
  -149 <= ez <= 104 ->
  binary_round_aux F32.prec F32.emax s (Zpos mz) ez loc_Exact = S754_finite s mz ez.
Proof.
  intros Hd He.
  assert (E : fexp F32.prec F32.emax (Zdigits2 (Zpos mz) + ez) - ez = 0).
  { unfold fexp, emin, F32.prec, F32.emax. cbn [Zdigits2]. rewrite Hd. lia. }
  unfold binary_round_aux, shr_fexp.
  cbn [shr_record_of_loc]. rewrite E. cbn [shr].
  cbn [loc_of_shr_record shr_m round_nearest_even shr_record_of_loc].
  rewrite E. cbn [shr shr_m].
  replace (ez <=? F32.emax - F32.prec) with true; [reflexivity|].
  symmetry. apply Z.leb_le. unfold F32.emax, F32.prec. lia.
Qed.

Lemma binary_round_small s m :
  Zpos m < 2 ^ 24 ->
  exists mz k,
    0 <= k <= 23 /\ Zpos mz = Zpos m * 2 ^ k
    /\ binary_round F32.prec F32.emax s m 0 = S754_finite s mz (- k).
Proof.
  intros Hm. pose proof (digits2_pos_bounds m) as (Hlo & _).
  assert (Hd : Zpos (digits2_pos m) <= 24).
  { destruct (Z.le_gt_cases (Zpos (digits2_pos m)) 24) as [|Hgt]; [assumption|].
    exfalso.
    assert (2 ^ 24 <= 2 ^ (Zpos (digits2_pos m) - 1))
      by (apply Z.pow_le_mono_r; lia).
    lia. }
  unfold binary_round.
  assert (Ef : fexp F32.prec F32.emax (Zpos (digits2_pos m) + 0)
               = Zpos (digits2_pos m) - 24).
  { unfold fexp, emin, F32.prec, F32.emax. lia. }
  rewrite Ef. unfold shl_align. rewrite Z.sub_0_r.
  destruct (Zpos (digits2_pos m) - 24) as [|k|k] eqn:Ek.
  - exists m, 0. rewrite binary_round_aux_canonical by lia.
    repeat split; lia.
  - lia.
  - destruct (iter_xO m k) as (Hv & Hdig).
    exists (Pos.iter xO m k), (Zpos k).
    rewrite binary_round_aux_canonical.
    + repeat split; lia.
    + rewrite Hdig. lia.
    + lia.
Qed.

Lemma to_int_of_Z_small x :
  - 2 ^ 24 < x < 2 ^ 24 -> F32.to_int (F32.of_Z x) = x.
Proof.
  intros Hx. unfold F32.of_Z, binary_normalize.
  assert (T : forall s m,
             Zpos m < 2 ^ 24 ->
             F32.to_int (binary_round F32.prec F32.emax s m 0)
             = cond_Zopp s (Zpos m)).
  { intros s m Hm.
    destruct (binary_round_small s m Hm) as (mz & k & Hk & Hv & ->).
    unfold F32.to_int, F32.trunc.
    assert (E : match - k with
                | 0 => Zpos mz
                | Zpos p => Zpos mz * 2 ^ Zpos p
                | Zneg p => Zpos mz / 2 ^ Zpos p
                end = Zpos m).
    { destruct k as [|p|p]; cbn [Z.opp]; [lia| |lia].
      rewrite Hv. apply Z.div_mul. lia. }
    rewrite E.
    assert (R : in_int (cond_Zopp s (Zpos m)) = true).
    { unfold in_int, INT_MIN, INT_MAX. apply andb_true_iff.
      rewrite !Z.leb_le. destruct s; cbn [cond_Zopp]; lia. }
    rewrite R. reflexivity. }
  destruct x as [|m|m].
  - reflexivity.
  - apply (T false m). lia.
  - apply (T true m). lia.
Qed.

Lemma of_Z_small_shape x :
  - 2 ^ 24 < x < 2 ^ 24 ->
  F32.of_Z x = S754_zero false
  \/ exists s mz k, F32.of_Z x = S754_finite s mz k.
Proof.
  intros Hx. unfold F32.of_Z, binary_normalize.
  destruct x as [|m|m].
  - left. reflexivity.
  - destruct (binary_round_small false m) as (mz & k & _ & _ & ->); [lia|].
    right. eauto.
  - destruct (binary_round_small true m) as (mz & k & _ & _ & ->); [lia|].
    right. eauto.
Qed.

Lemma small_casts_ok x y wheel :
  Z.abs x < 2 ^ 24 -> Z.abs y < 2 ^ 24 -> Z.abs wheel < 2 ^ 24 ->
  casts_ok x y wheel = true.
Proof.
  intros Hx Hy Hw. unfold casts_ok. rewrite !to_int_of_Z_small by lia.
  rewrite !Z.eqb_refl. reflexivity.
Qed.

(** A sample below 2^24 in magnitude survives the cast to [float] and back,
    so the first trap lets it through; with empty buffers the merged sample
    is the sample itself; and with the FPU usable the call consumes it: the
    buffers end empty and the time is stamped. *)
Theorem small_samples_pass_the_casts e st x y wheel :
  Z.abs x < 2 ^ 24 -> Z.abs y < 2 ^ 24 -> Z.abs wheel < 2 ^ 24 ->
  casts_ok x y wheel = true
  /\ merge x 0 = F32.of_Z x
  /\ (irq_fpu_usable e = true ->
      let r := accelerate e st x y wheel in
      (buffer_x (after r), buffer_y (after r), buffer_whl (after r)) = (0, 0, 0)
      /\ last (after r) = ktime_get e).
Proof.
  intros Hx Hy Hw.
  pose proof (small_casts_ok x y wheel Hx Hy Hw) as Hc.
  split; [exact Hc|]. split.
  - unfold merge. change (F32.of_Z 0) with (S754_zero false).
    destruct (of_Z_small_shape x) as [-> | (s & mz & k & ->)]; [lia| |];
      reflexivity.
  - intros Hu r. subst r. rewrite accelerate_guarded by assumption.
    destruct (polled_statics e st)
      as (_ & _ & _ & Hbx & Hby & Hbw & _ & _ & _ & _ & Hl).
    destruct (trapped e st x y wheel);
      cbn [after buffer_x buffer_y buffer_whl last set_carry];
      rewrite Hbx, Hby, Hbw, Hl; split; reflexivity.
Qed.

End Casts.

(** ** Linear mode without acceleration *)

Section Identity.

Context {lib : FloatLib}.

(** In mode 1 with [Acceleration] zero (as re-parsed, if this call
    re-parses), every positive finite rate gives a gain of exactly 1. *)
Theorem linear_without_acceleration e st x y s :
  g_AccelerationMode st = 1 ->
  Acceleration (g (updata_params (ktime_get e) st)) = S754_zero s ->
  F32.ltb (F32.of_Z 0) (rate_at e st x y) = true ->
  F32.is_finite (rate_at e st x y) = true ->
  gain_at e st x y = F32.of_Z 1.
Proof.
  intros Hm Ha Hpos Hfin. unfold gain_at.
  destruct (polled_statics e st) as (-> & -> & _).
  unfold curve. rewrite Hm, Hpos, Ha.
  destruct (rate_at e st x y) as [s'|s'| |s' m k]; try discriminate Hfin.
  - destruct s'; vm_compute in Hpos; discriminate Hpos.
  - reflexivity.
Qed.

End Identity.

(** ** Deferred samples *)

Section Deferral.

Context {lib : FloatLib}.

Lemma merge_into_idle b :
  - 2 ^ 24 < b < 2 ^ 24 -> merge 0 b = F32.of_Z b /\ merge b 0 = F32.of_Z b.
Proof.
  intros Hb. unfold merge. change (F32.of_Z 0) with (S754_zero false).
  destruct (of_Z_small_shape b Hb) as [-> | (s & mz & k & ->)];
    split; reflexivity.
Qed.

(** Deferral is transparent: a sample below 2^24 in magnitude that arrives
    with empty buffers while the FPU is not usable, followed by an idle
    sample (0, 0, 0) when it is, gives the status, the outputs and the
    statics that the sample itself would have given at that later call. *)
Theorem deferral_is_transparent e t st x y wheel :
  Z.abs x < 2 ^ 24 -> Z.abs y < 2 ^ 24 -> Z.abs wheel < 2 ^ 24 ->
  (buffer_x st, buffer_y st, buffer_whl st) = (0, 0, 0) ->
  irq_fpu_usable e = true ->
  accelerate e (after (accelerate (unusable t) st x y wheel)) 0 0 0
  = accelerate e st x y wheel.
Proof.
  intros Hx Hy Hw Hb Hu.
  injection Hb as Hbx Hby Hbw.
  rewrite (accelerate_busy (unusable t)) by reflexivity. cbn [after].
  rewrite Hbx, Hby, Hbw, !Z.add_0_l, !wrap64_id by lia.
  pose proof (small_casts_ok x y wheel Hx Hy Hw) as Hc.
  rewrite !accelerate_guarded by (assumption || reflexivity).
  destruct (merge_into_idle x) as (Mx & Mx'); [lia|].
  destruct (merge_into_idle y) as (My & My'); [lia|].
  destruct (merge_into_idle wheel) as (Mw & Mw'); [lia|].
  assert (Hp : polled e (set_buffer st x y wheel) = polled e st) by reflexivity.
  assert (Hr : rate_at e (set_buffer st x y wheel) 0 0 = rate_at e st x y).
  { unfold rate_at. rewrite Hp.
    change (frametime (ktime_get e) (set_buffer (set_buffer st x y wheel) 0 0 0))
      with (frametime (ktime_get e) (set_buffer st 0 0 0)).
    cbn [buffer_x buffer_y set_buffer]. rewrite Hbx, Hby, Mx, My, Mx', My'.
    reflexivity. }
  assert (Hg : gain_at e (set_buffer st x y wheel) 0 0 = gain_at e st x y).
  { unfold gain_at. rewrite Hp, Hr. reflexivity. }
  assert (Ux : unrounded_x e (set_buffer st x y wheel) 0 0 = unrounded_x e st x y).
  { unfold unrounded_x. rewrite Hp, Hg. cbn [buffer_x set_buffer].
    rewrite Hbx, Mx, Mx'. reflexivity. }
  assert (Uy : unrounded_y e (set_buffer st x y wheel) 0 0 = unrounded_y e st x y).
  { unfold unrounded_y. rewrite Hp, Hg. cbn [buffer_y set_buffer].
    rewrite Hby, My, My'. reflexivity. }
  assert (Uw : unrounded_whl e (set_buffer st x y wheel) 0 = unrounded_whl e st wheel).
  { unfold unrounded_whl. rewrite Hp. cbn [buffer_whl set_buffer].
    rewrite Hbw, Mw, Mw'. reflexivity. }
  unfold trapped. rewrite Ux, Uy, Uw, Hp. reflexivity.
Qed.

End Deferral.

(** * The theorems at concrete inputs *)

(** The three curves at the defaults, 10 counts in 5 ms (rate 2). *)
Lemma curve_gain_by_mode_witness :
  gain_at (lib := Ref.lib) (usable 5000000) (in_mode 1) 10 0
  = Spec.linear defaults (F32.of_Z 2)
  /\ gain_at (lib := Ref.lib) (usable 5000000) (in_mode 2) 10 0
     = Spec.classic (lib := Ref.lib) defaults (F32.of_Z 2)
  /\ gain_at (lib := Ref.lib) (usable 5000000) (in_mode 3) 10 0
     = Spec.motivity (lib := Ref.lib) defaults (F32.of_Z 2)
  /\ out_x (accelerate (lib := Ref.lib) (usable 5000000) (in_mode 1) 10 0 1) = 11.
Proof.
  assert (H1 : status (accelerate (lib := Ref.lib) (usable 5000000) (in_mode 1) 10 0 1) = 0)
    by (vm_compute; reflexivity).
  assert (H2 : status (accelerate (lib := Ref.lib) (usable 5000000) (in_mode 2) 10 0 1) = 0)
    by (vm_compute; reflexivity).
  assert (H3 : status (accelerate (lib := Ref.lib) (usable 5000000) (in_mode 3) 10 0 1) = 0)
    by (vm_compute; reflexivity).
  assert (R : forall m,
             F32.ltb (F32.of_Z 0)
               (Spec.rate (lib := Ref.lib)
                  (g (updata_params (lib := Ref.lib) (ktime_get (usable 5000000)) (in_mode m)))
                  (frametime (ktime_get (usable 5000000)) (in_mode m))
                  (merge 10 (buffer_x (in_mode m))) (merge 0 (buffer_y (in_mode m))))
             = true)
    by (intros m; vm_compute; reflexivity).
  destruct (curve_gain_by_mode (lib := Ref.lib) _ _ 10 0 1 H1 (R 1)) as (L & _ & _ & X & _).
  destruct (curve_gain_by_mode (lib := Ref.lib) _ _ 10 0 1 H2 (R 2)) as (_ & C & _).
  destruct (curve_gain_by_mode (lib := Ref.lib) _ _ 10 0 1 H3 (R 3)) as (_ & _ & M & _).
  split; [exact (L eq_refl)|]. split; [exact (C eq_refl)|].
  split; [exact (M eq_refl)|]. rewrite X. vm_compute. reflexivity.
Defined.

(** No movement (rate 0), and mode 7 at rate 2. *)
Lemma no_curve_gain_is_rate_witness :
  (* no movement: rate = 0 *)
  gain_at (lib := Ref.lib) (usable 5000000) init 0 0 = F32.of_Z 0
  (* mode 7, rate = 2 *)
  /\ gain_at (lib := Ref.lib) (usable 5000000) (in_mode 7) 10 0 = F32.of_Z 2
  /\ out_x (accelerate (lib := Ref.lib) (usable 5000000) (in_mode 7) 10 0 1) = 20.
Proof.
  assert (H0 : status (accelerate (lib := Ref.lib) (usable 5000000) init 0 0 1) = 0)
    by (vm_compute; reflexivity).
  assert (H7 : status (accelerate (lib := Ref.lib) (usable 5000000) (in_mode 7) 10 0 1) = 0)
    by (vm_compute; reflexivity).
  destruct (no_curve_gain_is_rate (lib := Ref.lib) _ _ 0 0 1 H0) as (G0 & _).
  { left. vm_compute. reflexivity. }
  destruct (no_curve_gain_is_rate (lib := Ref.lib) _ _ 10 0 1 H7) as (G7 & X7 & _).
  { right. repeat split; try (vm_compute; reflexivity); vm_compute; discriminate. }
  split; [exact G0|]. split; [exact G7|].
  rewrite X7. vm_compute. reflexivity.
Defined.

(** 10 counts in 5 ms at the defaults: gain 1.08, output 11. *)
Lemma outputs_and_carry_witness :
  let r := accelerate (lib := Ref.lib) (usable 5000000) init 10 0 1 in
  (out_x r, out_y r, out_wheel r) = (11, 0, 1)
  /\ carry_x (after r)
     = Spec.remainder
         (Spec.scaled (F32.of_Z 10) (gain_at (lib := Ref.lib) (usable 5000000) init 10 0)
            (F32.of_Z 1) F32.zero) 11.
Proof.
  intros r.
  assert (H : status r = 0) by (vm_compute; reflexivity).
  destruct (outputs_and_carry (lib := Ref.lib) _ _ 10 0 1 H) as (X & Y & W & CX & _).
  split.
  - fold r in X, Y, W. rewrite X, Y, W. vm_compute. reflexivity.
  - fold r in CX. rewrite CX. vm_compute. reflexivity.
Defined.

(** The three cases of the frame timer, from the initial statics. *)
Lemma frame_time_rule_witness :
  (* 5 ms since the last call *)
  last_ms (after (accelerate (lib := Ref.lib) (usable 5000000) init 10 0 1)) = F32.of_Z 5
  (* 0.5 ms: the previous value, 1 *)
  /\ last_ms (after (accelerate (lib := Ref.lib) (usable 500000) init 10 0 1)) = F32.of_Z 1
  (* 150 ms: 100 *)
  /\ last_ms (after (accelerate (lib := Ref.lib) (usable 150000000) init 10 0 1))
     = F32.of_Z 100.
Proof.
  assert (C : casts_ok 10 0 1 = true) by (vm_compute; reflexivity).
  destruct (frame_time_rule (lib := Ref.lib) (usable 5000000) init 10 0 1
              reachable_init eq_refl C) as (_ & A & _).
  destruct (frame_time_rule (lib := Ref.lib) (usable 500000) init 10 0 1
              reachable_init eq_refl C) as (_ & B & _).
  destruct (frame_time_rule (lib := Ref.lib) (usable 150000000) init 10 0 1
              reachable_init eq_refl C) as (_ & D & _).
  rewrite A, B, D. vm_compute. repeat split; reflexivity.
Defined.

(** A call stopped by the last trap while an update is pending. *)
Lemma failure_effects_witness :
  let r := accelerate (lib := Ref.lib) (usable 5000000) pending (-1073741824) 0 0 in
  (carry_x (after r), carry_y (after r), carry_whl (after r))
  = (carry_x pending, carry_y pending, carry_whl pending)
  /\ g (after r) = g (updata_params (lib := Ref.lib) 5000000 pending)
  /\ (buffer_x (after r), buffer_y (after r), buffer_whl (after r)) = (0, 0, 0).
Proof.
  intros r.
  destruct (failure_effects (lib := Ref.lib) (usable 5000000) pending (-1073741824) 0 0)
    as (Hc & _ & _ & Hr).
  - vm_compute. discriminate.
  - destruct Hr as (_ & Hg & _ & Hb); [vm_compute; reflexivity|].
    split; [exact Hc|]. split; [exact Hg | exact Hb].
Defined.

(** One call stopped by the first trap, one by the last. *)
Lemma numeric_fault_buffers_witness :
  (* 2^24 + 1 does not survive the cast: first trap, the sample is buffered *)
  buffer_x (after (accelerate (lib := Ref.lib) (usable 5000000) init 16777217 0 0))
  = 16777217
  (* last trap: the buffers are empty *)
  /\ buffer_x (after (accelerate (lib := Ref.lib) (usable 5000000) doubled (-1073741824) 0 0))
     = 0.
Proof.
  destruct (numeric_fault_buffers (lib := Ref.lib) (usable 5000000) init 16777217 0 0)
    as (H1 & _); [vm_compute; reflexivity|].
  destruct (numeric_fault_buffers (lib := Ref.lib) (usable 5000000) doubled (-1073741824) 0 0)
    as (_ & H2); [vm_compute; reflexivity|].
  destruct H1 as (B1 & _); [vm_compute; reflexivity|].
  destruct H2 as (_ & B2); [vm_compute; reflexivity|].
  split.
  - rewrite B1. vm_compute. reflexivity.
  - exact (f_equal (fun t => fst (fst t)) B2).
Defined.

(** Two reloads, the second asked for after 0.5 s and granted after 1 s. *)
Lemma reload_debounce_witness :
  reload_times (lib := Ref.lib) init two_reloads = [5000000; 1005000000]
  /\ 5000000 + 1000000000 <= 1005000000.
Proof.
  assert (T : reload_times (lib := Ref.lib) init two_reloads = [5000000; 1005000000])
    by (vm_compute; reflexivity).
  split; [exact T|].
  destruct (reload_debounce (lib := Ref.lib)) as (_ & _ & _ & H).
  apply (H init two_reloads) with (i := 0%nat) (j := 1%nat).
  - unfold clock_ok, two_reloads.
    repeat (constructor; [first [exact I | cbn [ktime_get usable unusable]; lia]|]).
    constructor.
  - constructor.
  - rewrite T. reflexivity.
  - rewrite T. reflexivity.
Defined.

(** Two executions with different [SensitivityCap] strings and floats. *)
Lemma sensitivity_cap_unobservable_witness :
  returns (lib := Ref.lib) init two_reloads
  = returns (lib := Ref.lib) recapped two_reloads_recapped
  /\ erase (run (lib := Ref.lib) init two_reloads)
     = erase (run (lib := Ref.lib) recapped two_reloads_recapped)
  /\ F32.eqb (SensitivityCap (g (run (lib := Ref.lib) init two_reloads)))
       (SensitivityCap (g (run (lib := Ref.lib) recapped two_reloads_recapped)))
     = false.
Proof.
  destruct (sensitivity_cap_unobservable (lib := Ref.lib) init recapped
              two_reloads two_reloads_recapped) as (R & E & _).
  - reflexivity.
  - unfold two_reloads, two_reloads_recapped.
    repeat (constructor; [first [apply same_irq | apply same_store; reflexivity]|]).
    constructor.
  - split; [exact R|]. split; [exact E|]. vm_compute. reflexivity.
Defined.

(** Six slow samples at sensitivity 1/4: outputs 0 1 0 0 0 1 for an ideal 3/2. *)
Lemma carry_conservation_witness :
  sum_out (lib := Ref.lib) AxisX quarter slow = 2
  /\ (sum_ideal (lib := Ref.lib) AxisX quarter slow == 3 # 2)%Q
  /\ (Qabs (inject_Z (sum_out (lib := Ref.lib) AxisX quarter slow)
            - sum_ideal (lib := Ref.lib) AxisX quarter slow) <= 1)%Q.
Proof.
  destruct (carry_conservation (lib := Ref.lib) AxisX quarter slow) as (_ & H).
  - vm_compute. reflexivity.
  - vm_compute. reflexivity.
  - vm_compute. discriminate.
  - split; [vm_compute; reflexivity|]. split; [vm_compute; reflexivity|]. exact H.
Defined.

(** The last trap on a product of exactly -2^31. *)
Lemma fault_symmetry_witness :
  let r := accelerate (lib := Ref.lib) (usable 9000000) doubled (-1073741824) 0 0 in
  status r = - EFAULT
  /\ (carry_x (after r), carry_y (after r), carry_whl (after r))
     = (carry_x doubled, carry_y doubled, carry_whl doubled).
Proof.
  apply (fault_symmetry (lib := Ref.lib) (usable 9000000) doubled (-1073741824) 0 0).
  - reflexivity.
  - vm_compute. reflexivity.
  - left. vm_compute. reflexivity.
Defined.

(** The frame time after the execution [two_reloads], and of a next call. *)
Lemma frame_time_in_range_witness :
  F32.ltb (last_ms (run (lib := Ref.lib) init two_reloads)) (F32.of_Z 1) = false
  /\ F32.eqb (frametime 1005000001 (run (lib := Ref.lib) init two_reloads)) (F32.of_Z 0)
     = false.
Proof.
  destruct (frame_time_in_range (lib := Ref.lib) (run (lib := Ref.lib) init two_reloads))
    as (A & _ & B).
  - apply reachable_run, reachable_init.
  - split; [exact A|]. apply (B 1005000001).
Defined.

(** A successful call at the defaults. *)
Lemma success_never_sentinel_witness :
  let r := accelerate (lib := Ref.lib) (usable 5000000) init 10 0 1 in
  (out_x r =? INT_MIN) = false
  /\ (buffer_x (after r), buffer_y (after r), buffer_whl (after r)) = (0, 0, 0).
Proof.
  intros r.
  destruct (success_never_sentinel (lib := Ref.lib) (usable 5000000) init 10 0 1)
    as (A & _ & _ & B & _).
  - vm_compute. reflexivity.
  - split; [apply Z.eqb_neq, A | exact B].
Defined.

(** A poll ten seconds after the one that re-parsed. *)
Lemma updata_params_consumes_flag_witness :
  updata_params (lib := Ref.lib) 10000000000 (updata_params (lib := Ref.lib) 5 pending)
  = updata_params (lib := Ref.lib) 5 pending.
Proof.
  destruct (updata_params_consumes_flag (lib := Ref.lib)) as (A & _).
  apply A. vm_compute. reflexivity.
Defined.

(** Mode and strings written with the flag down: the floats stay the defaults. *)
Lemma parameters_need_the_flag_witness :
  g (run (lib := Ref.lib) init unflagged) = defaults
  /\ g_param (run (lib := Ref.lib) init unflagged) = quartering.
Proof.
  destruct (parameters_need_the_flag (lib := Ref.lib) init unflagged) as (A & _).
  - reflexivity.
  - unfold quiet, unflagged. repeat (constructor; [first [reflexivity | exact I]|]).
    constructor.
  - split; [exact A | vm_compute; reflexivity].
Defined.

(** A re-parsing at 5 ms, the flag raised again. *)
Lemma debounce_boundary_witness :
  let st1 := store (updata_params (lib := Ref.lib) 5000000 pending) 1 1 doubling in
  updata_params (lib := Ref.lib) 1004999999 st1 = st1
  /\ g_update (updata_params (lib := Ref.lib) 1005000000 st1) = 0.
Proof.
  intros st1.
  destruct (debounce_boundary (lib := Ref.lib) pending 5000000 1 1 doubling)
    as (A & _ & B & _).
  - vm_compute. reflexivity.
  - lia.
  - discriminate.
  - split; [exact A | exact B].
Defined.

(** 1.999999 ms count as 1 ms. *)
Lemma frametime_whole_milliseconds_witness :
  frametime 1999999 init = F32.of_Z 1.
Proof.
  destruct (frametime_whole_milliseconds 1999999 init) as (A & _).
  - cbn [last init]. lia.
  - exact A.
Defined.

(** The largest sample in magnitude that is sure to pass. *)
Lemma small_samples_pass_the_casts_witness :
  casts_ok (-16777215) 16777215 1 = true
  /\ buffer_x (after (accelerate (lib := Ref.lib) (usable 5000000) init
                        (-16777215) 16777215 1)) = 0.
Proof.
  assert (H : Z.abs (-16777215) < 2 ^ 24 /\ Z.abs 16777215 < 2 ^ 24 /\ Z.abs 1 < 2 ^ 24)
    by (vm_compute; repeat split; reflexivity).
  destruct H as (Hx & Hy & Hw).
  destruct (small_samples_pass_the_casts (lib := Ref.lib) (usable 5000000) init
              (-16777215) 16777215 1 Hx Hy Hw) as (A & _ & B).
  split; [exact A|].
  destruct (B eq_refl) as (C & _).
  exact (f_equal (fun t => fst (fst t)) C).
Defined.

(** [Acceleration] re-parsed to 0: three counts in 8 ms have gain 1. *)
Lemma linear_without_acceleration_witness :
  gain_at (lib := Ref.lib) (usable 9000000) doubled 3 0 = F32.of_Z 1.
Proof.
  apply (linear_without_acceleration (lib := Ref.lib) (usable 9000000) doubled 3 0 false);
    vm_compute; reflexivity.
Defined.

(** Another wheel carry before a successful call: the same statics after. *)
Lemma wheel_carry_never_read_witness :
  after (accelerate (lib := Ref.lib) (usable 5000000)
           (with_carry_whl init (F32.of_Z 9)) 10 0 1)
  = after (accelerate (lib := Ref.lib) (usable 5000000) init 10 0 1).
Proof.
  destruct (wheel_carry_never_read (lib := Ref.lib) (usable 5000000) init (F32.of_Z 9)
              10 0 1) as (_ & _ & _ & A).
  apply A. vm_compute. reflexivity.
Defined.

(** Seven counts deferred at 6 ms and replayed at 9 ms. *)
Lemma deferral_is_transparent_witness :
  accelerate (lib := Ref.lib) (usable 9000000)
    (after (accelerate (lib := Ref.lib) (unusable 6000000) init 7 (-2) 1)) 0 0 0
  = accelerate (lib := Ref.lib) (usable 9000000) init 7 (-2) 1.
Proof.
  assert (H : Z.abs 7 < 2 ^ 24 /\ Z.abs (-2) < 2 ^ 24 /\ Z.abs 1 < 2 ^ 24)
    by (vm_compute; repeat split; reflexivity).
  destruct H as (Hx & Hy & Hw).
  exact (deferral_is_transparent (lib := Ref.lib) (usable 9000000) 6000000 init 7 (-2) 1
           Hx Hy Hw eq_refl eq_refl).
Defined.
